(** * Man MCP server ([mpm.main]): validation, process execution, tool results

    A shallow embedding of [src/mpm/main.py].  Python strings are sequences
    of Unicode code points; the two allow-list regular expressions are kept
    as syntax trees and run by a small backtracking matcher; [subprocess.run]
    is an oracle of the environment; logging and process launches are
    recorded in an event trace; Python exceptions are an explicit outcome. *)

From Stdlib Require Import List Bool Arith NArith ZArith Lia.
From Stdlib Require Import Ascii String DecimalString.
From Stdlib Require DecimalZ.
Import ListNotations.

(** ** Python strings *)

(** A [str] is a sequence of code points. *)
Definition pystr := list N.

(** An ASCII literal of the source, as a [pystr]. *)
Definition lit (s : string) : pystr :=
  List.map N_of_ascii (list_ascii_of_string s).

Arguments lit s%_string.

Definition chr (a : ascii) : N := N_of_ascii a.

(** The decimal form of an [int]: its digits, with a leading minus sign.
    It is what [str(n)] returns when it returns; the limit on the number of
    digits is in [str] below. *)
Definition str_int (z : Z) : pystr :=
  lit (NilZero.string_of_int (Z.to_int z)).

(** [sep.join(parts)]. *)
Fixpoint join (sep : pystr) (parts : list pystr) : pystr :=
  match parts with
  | [] => []
  | [p] => p
  | p :: rest => p ++ sep ++ join sep rest
  end.

(** [s.startswith(prefix)]. *)
Fixpoint startswith (pre s : pystr) : bool :=
  match pre, s with
  | [], _ => true
  | _ :: _, [] => false
  | a :: pre', b :: s' => (a =? b)%N && startswith pre' s'
  end.

(** [needle in hay]: the substring test. *)
Fixpoint contains (needle hay : pystr) : bool :=
  startswith needle hay ||
  match hay with
  | [] => false
  | _ :: hay' => contains needle hay'
  end.

(** Truth value of a [str]: empty is false. *)
Definition str_truthy (s : pystr) : bool :=
  match s with [] => false | _ :: _ => true end.

(** Line boundaries of [str.splitlines]: LF, VT, FF, CR, FS, GS, RS, NEL,
    LINE SEPARATOR, PARAGRAPH SEPARATOR. *)
Definition is_linebreak (c : N) : bool :=
  ((10 <=? c) && (c <=? 13) || (28 <=? c) && (c <=? 30) ||
   (c =? 133) || (c =? 8232) || (c =? 8233))%N.

(** [s.splitlines()] with [cur] the reversed line being read; CR LF is one
    boundary and no empty last line is produced. *)
Fixpoint splitlines_from (cur : pystr) (s : pystr) : list pystr :=
  match s with
  | [] => match cur with [] => [] | _ :: _ => [rev cur] end
  | c :: rest =>
      if is_linebreak c then
        match c, rest with
        | 13%N, 10%N :: rest' => rev cur :: splitlines_from [] rest'
        | _, _ => rev cur :: splitlines_from [] rest
        end
      else splitlines_from (c :: cur) rest
  end.

Definition splitlines (s : pystr) : list pystr := splitlines_from [] s.

(** ** Regular expressions of the [re] module, as far as the source uses them *)

Module Re.

(** One item of a bracketed character set. *)
Inductive set_item :=
| Range (lo hi : ascii)   (* a-z *)
| Single (c : ascii)      (* a literal or escaped character *)
| Space.                  (* \s *)

(** [\s] on a [str] pattern: Unicode white space. *)
Definition is_space (c : N) : bool :=
  ((9 <=? c) && (c <=? 13) || (28 <=? c) && (c <=? 32) ||
   (c =? 133) || (c =? 160) || (c =? 5760) ||
   (8192 <=? c) && (c <=? 8202) || (c =? 8232) || (c =? 8233) ||
   (c =? 8239) || (c =? 8287) || (c =? 12288))%N.

Definition item_mem (i : set_item) (c : N) : bool :=
  match i with
  | Range lo hi => ((chr lo <=? c) && (c <=? chr hi))%N
  | Single a => (c =? chr a)%N
  | Space => is_space c
  end.

Definition set_mem (cs : list set_item) (c : N) : bool :=
  existsb (fun i => item_mem i c) cs.

Inductive regex :=
| Bol                          (* ^ *)
| Eol                          (* $ *)
| Chars (cs : list set_item)   (* [...] *)
| Char (c : ascii)             (* an escaped literal such as \. *)
| Seq (r1 r2 : regex)
| Star (r : regex).            (* r* *)

(** [r+]. *)
Definition Plus (r : regex) : regex := Seq r (Star r).

(** [$] without MULTILINE: at the end, or before a newline that ends the
    string. *)
Definition at_eol (rest : pystr) : bool :=
  match rest with
  | [] => true
  | [10%N] => true
  | _ => false
  end.

(** Repetition: the suffixes left by zero or more matches of the body,
    each of which consumes something. *)
Fixpoint star_ends (body : pystr -> list pystr) (fuel : nat) (s : pystr)
  : list pystr :=
  s :: match fuel with
       | O => []
       | S fuel' =>
           flat_map (star_ends body fuel')
             (filter (fun s' => List.length s' <? List.length s) (body s))
       end.

Section Matcher.

(** Length of the whole subject string: a suffix of that length is at
    position 0. *)
Variable total : nat.

(** All suffixes of [s] that can remain after [r] matched a prefix of it. *)
Fixpoint ends (r : regex) (s : pystr) : list pystr :=
  match r with
  | Bol => if List.length s =? total then [s] else []
  | Eol => if at_eol s then [s] else []
  | Chars cs =>
      match s with
      | c :: s' => if set_mem cs c then [s'] else []
      | [] => []
      end
  | Char a =>
      match s with
      | c :: s' => if (c =? chr a)%N then [s'] else []
      | [] => []
      end
  | Seq r1 r2 => flat_map (ends r2) (ends r1 s)
  | Star r' => star_ends (ends r') (List.length s) s
  end.

End Matcher.

(** [pattern.fullmatch(s)], as a truth value: some way of matching consumes
    the whole string. *)
Definition fullmatch (r : regex) (s : pystr) : bool :=
  existsb (fun rest => match rest with [] => true | _ => false end)
          (ends (List.length s) r s).

(** The declarative reading: [Matches r pre m post] when [r] matches [m]
    inside the subject [pre ++ m ++ post]. *)
Inductive Matches : regex -> pystr -> pystr -> pystr -> Prop :=
| MBol post : Matches Bol [] [] post
| MEol pre post : at_eol post = true -> Matches Eol pre [] post
| MChars cs pre c post :
    set_mem cs c = true -> Matches (Chars cs) pre [c] post
| MChar a pre post : Matches (Char a) pre [chr a] post
| MSeq r1 r2 pre m1 m2 post :
    Matches r1 pre m1 (m2 ++ post) ->
    Matches r2 (pre ++ m1) m2 post ->
    Matches (Seq r1 r2) pre (m1 ++ m2) post
| MStar0 r pre post : Matches (Star r) pre [] post
| MStarS r pre m1 m2 post :
    Matches r pre m1 (m2 ++ post) ->
    Matches (Star r) (pre ++ m1) m2 post ->
    Matches (Star r) pre (m1 ++ m2) post.

(** The characters a pattern can consume. *)
Fixpoint alphabet (r : regex) (c : N) : bool :=
  match r with
  | Bol | Eol => false
  | Chars cs => set_mem cs c
  | Char a => (c =? chr a)%N
  | Seq r1 r2 => alphabet r1 c || alphabet r2 c
  | Star r' => alphabet r' c
  end.

(** Two patterns of the same shape whose character sets have the same
    members. *)
Fixpoint similar (r r' : regex) : Prop :=
  match r, r' with
  | Bol, Bol => True
  | Eol, Eol => True
  | Chars cs, Chars cs' => forall c, set_mem cs c = set_mem cs' c
  | Char a, Char a' => a = a'
  | Seq r1 r2, Seq r1' r2' => similar r1 r1' /\ similar r2 r2'
  | Star r1, Star r1' => similar r1 r1'
  | _, _ => False
  end.

End Re.

(** ** The two allow-lists *)

Import Re.

Local Open Scope char_scope.

(** [^[a-zA-Z0-9_\-]+(\.[a-zA-Z0-9_]+)*$] *)
Definition ALLOWED_TOPIC_INPUT : regex :=
  Seq Bol
   (Seq (Plus (Chars [Range "a" "z"; Range "A" "Z"; Range "0" "9";
                      Single "_"; Single "-"]))
    (Seq (Star (Seq (Char ".")
                    (Plus (Chars [Range "a" "z"; Range "A" "Z";
                                  Range "0" "9"; Single "_"]))))
         Eol)).

(** One or more characters of the set: a-z, A-Z, 0-9, \s and the escaped
    punctuation . , : / ' (double quote, character 34) ( ) [ ] { } * + ? | ^ $
    followed by _ and \- ; between ^ and $. *)
Definition ALLOWED_SEARCH_INPUT : regex :=
  Seq Bol
   (Seq (Plus (Chars [Range "a" "z"; Range "A" "Z"; Range "0" "9"; Space;
                      Single "."; Single ","; Single ":"; Single "/";
                      Single "'"; Single "034"; Single "("; Single ")";
                      Single "["; Single "]"; Single "{"; Single "}";
                      Single "*"; Single "+"; Single "?"; Single "|";
                      Single "^"; Single "$"; Single "_"; Single "-"]))
         Eol).

Local Close Scope char_scope.

Definition validate_topic (input : pystr) : bool :=
  fullmatch ALLOWED_TOPIC_INPUT input.

Definition validate_search_query (input : pystr) : bool :=
  fullmatch ALLOWED_SEARCH_INPUT input.

(** ** Result model *)

Record InputValidationError := mkInputValidationError {
  ive_input : pystr;
  ive_note : pystr
}.

Record ManError := mkManError {
  me_stdout : pystr;
  me_stderr : pystr;
  me_return_code : Z;
  me_note : pystr
}.

Record ManSearchResult := mkManSearchResult {
  results : list pystr
}.

Record ManPage := mkManPage {
  text : pystr
}.

(** The union [ManError | ManSearchResult | ManPage | InputValidationError]. *)
Inductive ManResult_result :=
| IsManError (e : ManError)
| IsManSearchResult (r : ManSearchResult)
| IsManPage (p : ManPage)
| IsInputValidationError (e : InputValidationError).

Record ManResult := mkManResult {
  result : ManResult_result
}.

(** [subprocess.CompletedProcess] with [text=True]. The return code is the
    exit status that the operating system reports, or minus the number of
    a signal: a few digits, far below the limit of [str]. *)
Record CompletedProcess := mkCompletedProcess {
  cp_args : list pystr;
  returncode : Z;
  stdout : pystr;
  stderr : pystr
}.

(** ** Effects: exceptions, the log and the process launches *)

(** The exception classes the handlers of [execute_call] tell apart:
    [subprocess.TimeoutExpired], any other subclass of [Exception] (a
    missing binary, an I/O or decoding error), and what lies outside
    [Exception] ([KeyboardInterrupt], [SystemExit]). *)
Inductive exc_class := TimeoutExpired | Exception | BaseException.

Definition issubclass (c base : exc_class) : bool :=
  match base, c with
  | BaseException, _ => true
  | Exception, (TimeoutExpired | Exception) => true
  | TimeoutExpired, TimeoutExpired => true
  | _, _ => false
  end.

(** A raised exception: its class and its [str(ex)]. *)
Record exn := mkExn {
  exn_class : exc_class;
  exn_str : pystr
}.

Definition isinstance (ex : exn) (c : exc_class) : bool :=
  issubclass (exn_class ex) c.

Inductive outcome (A : Type) :=
| Returned (a : A)
| Raised (e : exn).

Arguments Returned {A} a.
Arguments Raised {A} e.

Inductive event :=
| LogInfo (msg : pystr)
| LogError (msg : pystr)
| SpRun (args : list pystr) (timeout : Z).

(** A computation extends the trace and returns or raises. *)
Definition M (A : Type) := list event -> outcome A * list event.

Definition ret {A} (a : A) : M A := fun tr => (Returned a, tr).

Definition bind {A B} (c : M A) (k : A -> M B) : M B :=
  fun tr =>
    match c tr with
    | (Returned a, tr') => k a tr'
    | (Raised e, tr') => (Raised e, tr')
    end.

Definition emit (e : event) : M unit := fun tr => (Returned tt, tr ++ [e]).

Definition raise {A} (e : exn) : M A := fun tr => (Raised e, tr).

(** [sys.int_info.default_max_str_digits]: the most decimal digits that
    [str] prints for an [int]. *)
Definition int_max_str_digits : nat := 4300.

(** The [ValueError] of an integer string conversion over the limit; a
    [ValueError] is an [Exception]. *)
Definition ValueError_int_str : exn :=
  mkExn Exception
    (lit "Exceeds the limit (4300 digits) for integer string conversion; use sys.set_int_max_str_digits() to increase the limit").

(** [str(n)] as the interpreter evaluates it: the decimal digits of [n], or
    a [ValueError] when [n] has more digits, its sign apart, than the
    limit. *)
Definition str (n : Z) : M pystr :=
  if (int_max_str_digits <? List.length (str_int (Z.abs n)))%nat
  then raise ValueError_int_str
  else ret (str_int n).

(** [try: body except ...]: [handler] gives the clause that catches the
    exception, or [None] when none does and it propagates. *)
Definition try_except {A} (body : M A) (handler : exn -> option (M A)) : M A :=
  fun tr =>
    match body tr with
    | (Returned a, tr') => (Returned a, tr')
    | (Raised e, tr') =>
        match handler e with
        | Some h => h tr'
        | None => (Raised e, tr')
        end
    end.

Notation "x <- c ;; k" := (bind c (fun x => k))
  (at level 61, c at next level, right associativity).
Notation "c ;;; k" := (bind c (fun _ => k))
  (at level 61, right associativity).

Definition LOG_info (msg : pystr) : M unit := emit (LogInfo msg).
Definition LOG_error (msg : pystr) : M unit := emit (LogError msg).

(** The launches recorded in a trace, oldest first. *)
Fixpoint launches (tr : list event) : list (list pystr) :=
  match tr with
  | [] => []
  | SpRun args _ :: tr' => args :: launches tr'
  | _ :: tr' => launches tr'
  end.

(** ** The executor and the two tools *)

Section Tools.

(** What [subprocess.run(args, capture_output=True, timeout=5, text=True)]
    does for each argument vector: it returns a completed process or
    raises. *)
Variable run : list pystr -> outcome CompletedProcess.

Definition sp_run (args : list pystr) (timeout : Z) : M CompletedProcess :=
  fun tr => (run args, tr ++ [SpRun args timeout]).

(** [execute_call]: a [ManError] ([inl]) or the completed process ([inr]). *)
Definition execute_call (args : list pystr) : M (ManError + CompletedProcess) :=
  let note : pystr := [] in
  r <- try_except
         (LOG_info (lit "Executing `" ++ join (lit " ") args
                    ++ lit "` from MCP call") ;;;
          process <- sp_run args 5 ;;
          ret (inr process))
         (fun ex =>
            if isinstance ex TimeoutExpired then
              Some (LOG_error
                      (lit "Timeout encountered while calling `man` with args "
                       ++ join (lit " ") args) ;;;
                    ret (inl (mkManError [] [] (-1)
                                (lit "Timeout exception " ++ exn_str ex
                                 ++ lit "."))))
            else if isinstance ex Exception then
              Some (LOG_error
                      (lit "Unknown exception encountered while calling `man` with args "
                       ++ join (lit " ") args) ;;;
                    ret (inl (mkManError [] [] (-1)
                                (lit "Unknown exception " ++ exn_str ex
                                 ++ lit "."))))
            else None) ;;
  match r with
  | inl err => ret (inl err)
  | inr process =>
      let note :=
        if str_truthy (stderr process)
        then note ++ lit "Unexpected error encountered: "
                  ++ stderr process ++ [10%N]
        else note in
      let note :=
        if contains (lit "No manual entry for ") (stdout process)
        then note ++ stdout process ++ [10%N]
        else note in
      let note :=
        if negb (returncode process =? 0)%Z
        then note ++ lit "Non zero return code `"
                  ++ str_int (returncode process) ++ lit "`" ++ [10%N]
        else note in
      if str_truthy note then
        LOG_error
          (lit "error encountered while attempting to retrieve page with `man` error: "
           ++ [10%N] ++ note) ;;;
        ret (inl (mkManError (stdout process) (stderr process)
                    (returncode process) note))
      else ret (inr process)
  end.

Definition search_descriptions (query : pystr) : M ManResult :=
  if negb (validate_search_query query) then
    LOG_error (lit "Invalid input '" ++ query ++ lit "' submitted") ;;;
    ret (mkManResult
           (IsInputValidationError
              (mkInputValidationError query
                 (lit "Query contains invalid characters"))))
  else
    out <- execute_call [lit "man"; lit "-k"; query] ;;
    match out with
    | inl err => ret (mkManResult (IsManError err))
    | inr out =>
        let results := splitlines (stdout out) in
        LOG_info (lit "MCP call successful, returning "
                  ++ str_int (Z.of_nat (List.length results))
                  ++ lit " matches in man pages") ;;;
        ret (mkManResult (IsManSearchResult (mkManSearchResult results)))
    end.

Definition get_manpage (page : pystr) (section : option Z) : M ManResult :=
  if negb (validate_topic page) then
    LOG_error (lit "Invalid input '" ++ page ++ lit "' submitted") ;;;
    ret (mkManResult
           (IsInputValidationError
              (mkInputValidationError page
                 (lit "Page name must contain only alphanumeric characters, underscores and dashes. "
                  ++ lit "Optionally followed by a '.' and number for section."))))
  else
    (* [if section:] is false for [None] and for [0]; [str(section)] is
       evaluated here, outside of any [try] *)
    args <-
      match section with
      | Some n => if negb (n =? 0)%Z
                  then (token <- str n ;; ret [lit "man"; token; page])
                  else ret [lit "man"; page]
      | None => ret [lit "man"; page]
      end ;;
    out <- execute_call args ;;
    match out with
    | inl err => ret (mkManResult (IsManError err))
    | inr out =>
        LOG_info (lit "MCP call successful, returning man page '"
                  ++ page ++ lit "'") ;;;
        ret (mkManResult (IsManPage (mkManPage (stdout out))))
    end.

End Tools.

(** ** The words of the specification *)

(** Definitions that follow the words of the specification, to be compared
    with the patterns of the source. *)
Module SpecWords.

Local Open Scope char_scope.

(** The pattern as the specification writes it:
    [^[A-Za-z0-9_-]+(\.[A-Za-z0-9_]+)*$]. *)
Definition TOPIC_PATTERN : regex :=
  Seq Bol
   (Seq (Plus (Chars [Range "A" "Z"; Range "a" "z"; Range "0" "9";
                      Single "_"; Single "-"]))
    (Seq (Star (Seq (Char ".")
                    (Plus (Chars [Range "A" "Z"; Range "a" "z";
                                  Range "0" "9"; Single "_"]))))
         Eol)).

(** The shell metacharacters [; | & $ ` ( ) < >] and the newline. *)
Definition shell_metachars : list N :=
  List.map chr [";"; "|"; "&"; "$"; "`"; "("; ")"; "<"; ">"] ++ [10%N].

Definition is_letter (c : N) : bool :=
  ((chr "a" <=? c) && (c <=? chr "z") || (chr "A" <=? c) && (c <=? chr "Z"))%N.

Definition is_digit (c : N) : bool :=
  ((chr "0" <=? c) && (c <=? chr "9"))%N.

(** The punctuation set [. , : / ' (double quote) ( ) [ ] { } * + ? | ^ $ _ -]. *)
Definition search_punctuation : list N :=
  List.map chr ["."; ","; ":"; "/"; "'"; "034"; "("; ")"; "["; "]"; "{"; "}";
                "*"; "+"; "?"; "|"; "^"; "$"; "_"; "-"].

(** Letters, digits, white space and the punctuation set. *)
Definition search_allowed (c : N) : bool :=
  is_letter c || is_digit c || is_space c ||
  existsb (fun p => (c =? p)%N) search_punctuation.

Local Close Scope char_scope.

End SpecWords.

(** ** Simulated processes *)

(** A process that completes with the given exit code and streams,
    whatever its arguments. *)
Definition completes (rc : Z) (out err : pystr)
  : list pystr -> outcome CompletedProcess :=
  fun args => Returned (mkCompletedProcess args rc out err).

(** A launch that raises an exception of the given class. *)
Definition raises (c : exc_class) (msg : pystr)
  : list pystr -> outcome CompletedProcess :=
  fun _ => Raised (mkExn c msg).

(** The outcomes of the external process: it completes, it times out, or
    launching or talking to it fails with some [Exception]. *)
Definition modelled_outcome (o : outcome CompletedProcess) : bool :=
  match o with
  | Returned _ => true
  | Raised ex => isinstance ex Exception
  end.

(** Which of the four variants an envelope holds. *)
Definition variants (r : ManResult) : list bool :=
  match result r with
  | IsManError _ => [true; false; false; false]
  | IsManSearchResult _ => [false; true; false; false]
  | IsManPage _ => [false; false; true; false]
  | IsInputValidationError _ => [false; false; false; true]
  end.

Definition holds_one_variant (r : ManResult) : Prop :=
  count_occ bool_dec (variants r) true = 1%nat.

(** [unlines ls]: every line followed by a newline. *)
Definition unlines (ls : list pystr) : pystr :=
  List.concat (List.map (fun l => l ++ [10%N]) ls).

(** ** Parts of the source named for the further properties *)

Local Open Scope char_scope.

(** The set of the first segment of a topic, [[a-zA-Z0-9_\-]]. *)
Definition topic_first : list set_item :=
  [Range "a" "z"; Range "A" "Z"; Range "0" "9"; Single "_"; Single "-"].

(** The set of the dotted segments of a topic, [[a-zA-Z0-9_]]. *)
Definition topic_next : list set_item :=
  [Range "a" "z"; Range "A" "Z"; Range "0" "9"; Single "_"].

(** The set of a search query. *)
Definition search_set : list set_item :=
  [Range "a" "z"; Range "A" "Z"; Range "0" "9"; Space;
   Single "."; Single ","; Single ":"; Single "/";
   Single "'"; Single "034"; Single "("; Single ")";
   Single "["; Single "]"; Single "{"; Single "}";
   Single "*"; Single "+"; Single "?"; Single "|";
   Single "^"; Single "$"; Single "_"; Single "-"].

Local Close Scope char_scope.

(** A first segment followed by segments that each start with a dot. *)
Definition dotted (head : pystr) (segs : list pystr) : pystr :=
  head ++ List.concat (List.map (fun g => chr "." :: g) segs).

(** A non-empty run of characters of a set. *)
Definition run_of (cs : list set_item) (m : pystr) : Prop :=
  m <> [] /\ forall c, In c m -> set_mem cs c = true.

(** The three signals [execute_call] looks at are all absent. *)
Definition clean (cp : CompletedProcess) : bool :=
  (returncode cp =? 0)%Z && negb (str_truthy (stderr cp)) &&
  negb (contains (lit "No manual entry for ") (stdout cp)).

(** The records logged at error severity. *)
Fixpoint error_logs (tr : list event) : list pystr :=
  match tr with
  | [] => []
  | LogError msg :: tr' => msg :: error_logs tr'
  | _ :: tr' => error_logs tr'
  end.

(** The launch events of a trace, with their timeouts. *)
Fixpoint launch_events (tr : list event) : list (list pystr * Z) :=
  match tr with
  | [] => []
  | SpRun args timeout :: tr' => (args, timeout) :: launch_events tr'
  | _ :: tr' => launch_events tr'
  end.

(** The envelope reports a failure: a [ManError] or an
    [InputValidationError]. *)
Definition is_failure (r : ManResult) : bool :=
  match result r with
  | IsManError _ | IsInputValidationError _ => true
  | IsManSearchResult _ | IsManPage _ => false
  end.

(** [str(section)] stays within the limit of the interpreter, or there is
    no section to print. *)
Definition section_fits (section : option Z) : bool :=
  match section with
  | Some n => negb (int_max_str_digits <? List.length (str_int (Z.abs n)))%nat
  | None => true
  end.

(** The integer written as a 1 followed by 4300 zeros, [10**4300]: the
    least one over the limit. *)
Definition ten_pow_4300 : Z :=
  Z.of_int (Decimal.Pos (Decimal.D1 (Nat.iter 4300 Decimal.D0 Decimal.Nil))).

(** The argument vector [get_manpage] builds for a valid page, when
    [str(section)] returns. *)
Definition manpage_args (page : pystr) (section : option Z) : list pystr :=
  match section with
  | Some n => if negb (n =? 0)%Z
              then [lit "man"; str_int n; page]
              else [lit "man"; page]
  | None => [lit "man"; page]
  end.

(** Every line followed by CR LF. *)
Definition unlines_crlf (ls : list pystr) : pystr :=
  List.concat (List.map (fun l => l ++ [13%N; 10%N]) ls).

(** * Properties *)

(** Unfolds the monad under [execute_call]. *)
Ltac run_exec :=
  unfold execute_call, try_except, bind, sp_run, LOG_info, LOG_error, emit, ret.

(** Case analysis on what a hypothesis branches on: the launch, a test, the
    class of the exception. *)
Ltac on_run C cp ex E :=
  match type of C with
  | match ?x with Returned _ => _ | Raised _ => _ end =>
      revert C; destruct x as [cp | ex] eqn:E; intros C; cbv beta iota in C
  end.

Ltac on_test C E :=
  match type of C with
  | if ?x then _ else _ =>
      revert C; destruct x eqn:E; intros C; cbv beta iota in C
  end.

Ltac on_class C E :=
  match type of C with
  | match ?x with TimeoutExpired => _ | Exception => _ | BaseException => _ end =>
      revert C; destruct x eqn:E; intros C; cbv beta iota in C
  end.

(** ** The matcher agrees with the declarative reading *)

Module ReFacts.

Lemma star_ends_head body fuel s :
  In s (star_ends body fuel s).
Proof. destruct fuel; simpl; auto. Qed.

Lemma star_ends_mono body fuel fuel' s x :
  (fuel <= fuel')%nat ->
  In x (star_ends body fuel s) ->
  In x (star_ends body fuel' s).
Proof.
  revert fuel' s x.
  induction fuel as [|fuel IH]; intros fuel' s x Hle Hin.
  - simpl in Hin. destruct Hin as [<- | []]. apply star_ends_head.
  - destruct fuel' as [|fuel']; [lia|].
    simpl in Hin |- *. destruct Hin as [Heq | Hin]; [now left|right].
    apply in_flat_map in Hin. destruct Hin as [s' [Hs' Hx]].
    apply in_flat_map. exists s'. split; [exact Hs'|].
    apply IH; [lia | exact Hx].
Qed.

Lemma star_ends_sound total r fuel :
  (forall s rest, In rest (ends total r s) ->
     exists m, s = m ++ rest /\
       forall pre, (List.length pre + List.length s = total)%nat ->
                   Matches r pre m rest) ->
  forall s rest, In rest (star_ends (ends total r) fuel s) ->
    exists m, s = m ++ rest /\
      forall pre, (List.length pre + List.length s = total)%nat ->
                  Matches (Star r) pre m rest.
Proof.
  intros Hbody. induction fuel as [|fuel IH]; intros s rest Hin.
  - simpl in Hin. destruct Hin as [<- | []].
    exists []. split; [reflexivity | intros; constructor].
  - simpl in Hin. destruct Hin as [<- | Hin].
    + exists []. split; [reflexivity | intros; constructor].
    + apply in_flat_map in Hin. destruct Hin as [s' [Hs' Hrest]].
      apply filter_In in Hs'. destruct Hs' as [Hs' _].
      destruct (Hbody _ _ Hs') as [m1 [E1 M1]].
      destruct (IH _ _ Hrest) as [m2 [E2 M2]].
      exists (m1 ++ m2). split.
      * rewrite <- app_assoc, <- E2. exact E1.
      * intros pre Hlen. apply MStarS.
        -- rewrite <- E2. apply M1. exact Hlen.
        -- apply M2. rewrite E1 in Hlen.
           rewrite !length_app in *. lia.
Qed.

Lemma ends_sound total r :
  forall s rest, In rest (ends total r s) ->
    exists m, s = m ++ rest /\
      forall pre, (List.length pre + List.length s = total)%nat ->
                  Matches r pre m rest.
Proof.
  induction r as [| | cs | a | r1 IH1 r2 IH2 | r IH]; intros s rest Hin.
  - simpl in Hin. destruct (Nat.eqb_spec (List.length s) total) as [E|E];
      [|destruct Hin].
    destruct Hin as [<- | []]. exists []. split; [reflexivity|].
    intros pre Hlen. assert (pre = []) as -> by (destruct pre; simpl in *; [easy|lia]).
    constructor.
  - simpl in Hin. destruct (at_eol s) eqn:E; [|destruct Hin].
    destruct Hin as [<- | []]. exists []. split; [reflexivity|].
    intros; now constructor.
  - simpl in Hin. destruct s as [|c s']; [destruct Hin|].
    destruct (set_mem cs c) eqn:E; [|destruct Hin].
    destruct Hin as [<- | []]. exists [c]. split; [reflexivity|].
    intros; now constructor.
  - simpl in Hin. destruct s as [|c s']; [destruct Hin|].
    destruct (N.eqb_spec c (chr a)) as [->|E]; [|destruct Hin].
    destruct Hin as [<- | []]. exists [chr a]. split; [reflexivity|].
    intros; constructor.
  - simpl in Hin. apply in_flat_map in Hin. destruct Hin as [s' [Hs' Hrest]].
    destruct (IH1 _ _ Hs') as [m1 [E1 M1]].
    destruct (IH2 _ _ Hrest) as [m2 [E2 M2]].
    exists (m1 ++ m2). split.
    + rewrite <- app_assoc, <- E2. exact E1.
    + intros pre Hlen. apply MSeq.
      * rewrite <- E2. apply M1. exact Hlen.
      * apply M2. rewrite E1 in Hlen. rewrite !length_app in *. lia.
  - simpl in Hin. eapply star_ends_sound; eauto.
Qed.

Lemma ends_complete total r pre m post :
  Matches r pre m post ->
  (List.length pre + List.length m + List.length post = total)%nat ->
  In post (ends total r (m ++ post)).
Proof.
  intros HM. revert total.
  induction HM as [post | pre post E | cs pre c post E | a pre post
                  | r1 r2 pre m1 m2 post _ IH1 _ IH2
                  | r pre post
                  | r pre m1 m2 post _ IH1 _ IH2]; intros total Hlen.
  - simpl in *. rewrite <- Hlen, Nat.eqb_refl. now left.
  - simpl. rewrite E. now left.
  - simpl. rewrite E. now left.
  - simpl. rewrite N.eqb_refl. now left.
  - simpl. apply in_flat_map. exists (m2 ++ post). split.
    + rewrite <- app_assoc. apply IH1. rewrite !length_app in *. lia.
    + apply IH2. rewrite !length_app in *. lia.
  - simpl. apply star_ends_head.
  - destruct m1 as [|c m1].
    + simpl. rewrite app_nil_r in IH2. apply IH2. simpl in *. lia.
    + specialize (IH1 total). specialize (IH2 total).
      rewrite <- app_assoc. simpl. right.
      apply in_flat_map. exists (m2 ++ post). split.
      * apply filter_In. split.
        -- apply IH1. rewrite !length_app in *. simpl in *. lia.
        -- apply Nat.ltb_lt. rewrite !length_app. lia.
      * simpl in IH2.
        eapply star_ends_mono; [|apply IH2; rewrite !length_app in *; simpl in *; lia].
        rewrite !length_app. lia.
Qed.

(** [fullmatch] is true exactly on the strings the pattern matches from
    start to end. *)
Lemma fullmatch_iff r s :
  fullmatch r s = true <-> Matches r [] s [].
Proof.
  unfold fullmatch. split.
  - intros H. apply existsb_exists in H. destruct H as [rest [Hin Hrest]].
    destruct rest; [|discriminate].
    destruct (ends_sound _ _ _ _ Hin) as [m [E M]].
    rewrite app_nil_r in E. subst m. apply M. reflexivity.
  - intros H. apply existsb_exists. exists []. split; [|reflexivity].
    pose proof (ends_complete (List.length s) _ _ _ _ H) as Hc.
    rewrite app_nil_r in Hc. apply Hc. simpl. lia.
Qed.

(** A match consumes only characters of the pattern's alphabet. *)
Lemma Matches_alphabet r pre m post :
  Matches r pre m post -> forall c, In c m -> alphabet r c = true.
Proof.
  induction 1 as [post | pre post E | cs pre c post E | a pre post
                 | r1 r2 pre m1 m2 post _ IH1 _ IH2
                 | r pre post
                 | r pre m1 m2 post _ IH1 _ IH2]; intros x Hx; simpl in *.
  - destruct Hx.
  - destruct Hx.
  - destruct Hx as [<- | []]. exact E.
  - destruct Hx as [<- | []]. apply N.eqb_refl.
  - apply in_app_or in Hx. apply orb_true_iff.
    destruct Hx; [left; now apply IH1 | right; now apply IH2].
  - destruct Hx.
  - apply in_app_or in Hx. destruct Hx; [now apply IH1 | now apply IH2].
Qed.

Lemma fullmatch_alphabet r s c :
  fullmatch r s = true -> In c s -> alphabet r c = true.
Proof.
  intros H. apply fullmatch_iff in H. eapply Matches_alphabet; eauto.
Qed.

(** A run of characters of a set is matched by the starred set. *)
Lemma Matches_star_chars cs m :
  (forall c, In c m -> set_mem cs c = true) ->
  forall pre post, Matches (Star (Chars cs)) pre m post.
Proof.
  induction m as [|c m IH]; intros Hall pre post.
  - constructor.
  - change (c :: m) with ([c] ++ m). apply MStarS.
    + constructor. apply Hall. now left.
    + apply IH. intros x Hx. apply Hall. now right.
Qed.

Lemma Matches_plus_chars cs m :
  m <> [] ->
  (forall c, In c m -> set_mem cs c = true) ->
  forall pre post, Matches (Plus (Chars cs)) pre m post.
Proof.
  intros Hne Hall pre post. destruct m as [|c m]; [congruence|].
  change (c :: m) with ([c] ++ m). apply MSeq.
  - constructor. apply Hall. now left.
  - apply Matches_star_chars. intros x Hx. apply Hall. now right.
Qed.

End ReFacts.

(** ** Strings *)

Module StrFacts.

Lemma startswith_iff p s :
  startswith p s = true <-> exists b, s = p ++ b.
Proof.
  revert s. induction p as [|a p IH]; intros s; simpl.
  - split; [intros _; now exists s | reflexivity].
  - destruct s as [|b s].
    + split; [discriminate | intros [x Hx]; discriminate].
    + rewrite andb_true_iff, IH, N.eqb_eq. split.
      * intros [-> [x ->]]. now exists x.
      * intros [x Hx]. injection Hx as -> ->. split; [reflexivity | now exists x].
Qed.

Lemma contains_unfold n h :
  contains n h =
  startswith n h || match h with [] => false | _ :: h' => contains n h' end.
Proof. destruct h; reflexivity. Qed.

Lemma contains_iff n h :
  contains n h = true <-> exists a b, h = a ++ n ++ b.
Proof.
  split.
  - induction h as [|x h IH]; rewrite contains_unfold; intros H;
      apply orb_true_iff in H; destruct H as [H | H].
    + apply startswith_iff in H. destruct H as [b Hb]. now exists [], b.
    + discriminate.
    + apply startswith_iff in H. destruct H as [b Hb]. now exists [], b.
    + destruct (IH H) as [a [b ->]]. now exists (x :: a), b.
  - intros [a [b ->]]. induction a as [|x a IH].
    + rewrite contains_unfold. apply orb_true_iff. left.
      apply startswith_iff. now exists b.
    + rewrite contains_unfold. apply orb_true_iff. right. exact IH.
Qed.

(** A substring of a part is a substring of the whole. *)
Lemma contains_app n a h b :
  contains n h = true -> contains n (a ++ h ++ b) = true.
Proof.
  rewrite !contains_iff. intros [x [y ->]].
  exists (a ++ x), (y ++ b). now rewrite <- !app_assoc.
Qed.

Lemma contains_self_app n a b : contains n (a ++ n ++ b) = true.
Proof. apply contains_iff. now exists a, b. Qed.

(** A string that contains [n1 ++ n2] contains [n1]. *)
Lemma contains_prefix n1 n2 h :
  contains (n1 ++ n2) h = true -> contains n1 h = true.
Proof.
  rewrite !contains_iff. intros [x [y ->]].
  exists x, (n2 ++ y). now rewrite <- !app_assoc.
Qed.

Lemma lit_app a b : lit (a ++ b) = lit a ++ lit b.
Proof.
  unfold lit. induction a as [|c a IH]; simpl; [reflexivity|].
  now rewrite IH.
Qed.

Lemma splitlines_from_line cur l rest :
  (forall c, In c l -> is_linebreak c = false) ->
  splitlines_from cur (l ++ 10%N :: rest)
  = (rev cur ++ l) :: splitlines_from [] rest.
Proof.
  revert cur. induction l as [|c l IH]; intros cur Hl.
  - simpl. now rewrite app_nil_r.
  - simpl. rewrite (Hl c (or_introl eq_refl)).
    rewrite IH by (intros x Hx; apply Hl; now right).
    simpl. now rewrite <- app_assoc.
Qed.

(** Lines that hold no line boundary, each ended by a newline, are split
    back into themselves: order, duplicates and empty inner lines are kept
    and nothing follows the last newline. *)
Lemma splitlines_unlines ls :
  (forall l c, In l ls -> In c l -> is_linebreak c = false) ->
  splitlines (List.concat (List.map (fun l => l ++ [10%N]) ls)) = ls.
Proof.
  unfold splitlines. induction ls as [|l ls IH]; intros Hls.
  - reflexivity.
  - simpl. rewrite <- app_assoc. simpl.
    rewrite splitlines_from_line by (intros c Hc; eapply Hls; [now left | exact Hc]).
    simpl. f_equal. apply IH. intros l' c Hl' Hc. eapply Hls; [right; exact Hl' | exact Hc].
Qed.

Lemma launches_app a b : launches (a ++ b) = launches a ++ launches b.
Proof.
  induction a as [|e a IH]; simpl; [reflexivity|].
  destruct e; simpl; now rewrite IH.
Qed.

(** A negative [int] prints as a minus sign before its absolute value. *)
Lemma str_int_neg p : str_int (Z.neg p) = chr "-" :: str_int (Z.pos p).
Proof. reflexivity. Qed.

End StrFacts.

(** ** The executor *)

Module ExecFacts.

(** Every call of [execute_call] launches the process once, with the
    arguments it was given. *)
Lemma execute_call_launches run args tr :
  launches (snd (execute_call run args tr)) = launches tr ++ [args].
Proof.
  run_exec. destruct (run args) as [cp | ex].
  - destruct (str_truthy _); cbn [snd];
      rewrite <- ?app_assoc, !StrFacts.launches_app; simpl;
      now rewrite ?app_nil_r.
  - destruct (isinstance ex TimeoutExpired);
      [|destruct (isinstance ex Exception)]; cbn [snd];
      rewrite <- ?app_assoc, !StrFacts.launches_app; simpl;
      now rewrite ?app_nil_r.
Qed.

Lemma execute_call_success run args cp tr :
  run args = Returned cp ->
  returncode cp = 0%Z ->
  stderr cp = [] ->
  contains (lit "No manual entry for ") (stdout cp) = false ->
  fst (execute_call run args tr) = Returned (inr cp).
Proof.
  intros Hrun Hrc Herr Hout. run_exec.
  rewrite Hrun, Hrc, Herr, Hout. reflexivity.
Qed.

Lemma execute_call_timeout run args ex tr :
  run args = Raised ex ->
  exn_class ex = TimeoutExpired ->
  fst (execute_call run args tr)
  = Returned (inl (mkManError [] [] (-1)
                     (lit "Timeout exception " ++ exn_str ex ++ lit "."))).
Proof.
  intros Hrun Hc. run_exec. rewrite Hrun. unfold isinstance. rewrite Hc.
  reflexivity.
Qed.

Lemma execute_call_exception run args ex tr :
  run args = Raised ex ->
  exn_class ex = Exception ->
  fst (execute_call run args tr)
  = Returned (inl (mkManError [] [] (-1)
                     (lit "Unknown exception " ++ exn_str ex ++ lit "."))).
Proof.
  intros Hrun Hc. run_exec. rewrite Hrun. unfold isinstance. rewrite Hc.
  reflexivity.
Qed.

(** What lies outside [Exception] is not caught. *)
Lemma execute_call_propagates run args ex tr :
  run args = Raised ex ->
  exn_class ex = BaseException ->
  fst (execute_call run args tr) = Raised ex.
Proof.
  intros Hrun Hc. run_exec. rewrite Hrun. unfold isinstance. rewrite Hc.
  reflexivity.
Qed.

(** A completed process is never turned into an exception: the result is
    the process itself or a [ManError] that carries its streams and code. *)
Lemma execute_call_completed run args cp tr :
  run args = Returned cp ->
  fst (execute_call run args tr) = Returned (inr cp) \/
  exists note,
    fst (execute_call run args tr)
    = Returned (inl (mkManError (stdout cp) (stderr cp) (returncode cp) note)).
Proof.
  intros Hrun. run_exec. rewrite Hrun.
  destruct (str_truthy _); [right; eexists; reflexivity | left; reflexivity].
Qed.

Lemma get_manpage_valid run page section tr :
  validate_topic page = true ->
  section_fits section = true ->
  get_manpage run page section tr
  = bind (execute_call run
            match section with
            | Some n => if negb (n =? 0)%Z
                        then [lit "man"; str_int n; page]
                        else [lit "man"; page]
            | None => [lit "man"; page]
            end)
         (fun out =>
            match out with
            | inl err => ret (mkManResult (IsManError err))
            | inr out =>
                bind (LOG_info (lit "MCP call successful, returning man page '"
                                ++ page ++ lit "'"))
                     (fun _ => ret (mkManResult (IsManPage (mkManPage (stdout out)))))
            end) tr.
Proof.
  intros H Hf. unfold get_manpage. rewrite H. cbn [negb].
  destruct section as [n|]; [|reflexivity].
  destruct (negb (n =? 0)%Z); [|reflexivity].
  unfold section_fits in Hf. apply negb_true_iff in Hf.
  unfold str. rewrite Hf. reflexivity.
Qed.

(** A section of more than 4300 digits: [str] raises before anything is
    logged or launched, and the exception leaves the tool. *)
Lemma get_manpage_oversized run page section tr :
  validate_topic page = true ->
  section_fits section = false ->
  get_manpage run page section tr = (Raised ValueError_int_str, tr).
Proof.
  intros H Hf. unfold get_manpage. rewrite H. cbn [negb].
  destruct section as [n|]; [|discriminate Hf].
  unfold section_fits in Hf. apply negb_false_iff in Hf.
  destruct (Z.eqb_spec n 0) as [-> | Hn]; [discriminate Hf|].
  cbn [negb]. unfold str. rewrite Hf. reflexivity.
Qed.

Lemma of_uint_acc_zeros k acc :
  Z.pos (Pos.of_uint_acc (Nat.iter k Decimal.D0 Decimal.Nil) acc)
  = (Z.pos acc * 10 ^ Z.of_nat k)%Z.
Proof.
  revert acc. induction k as [|k IH]; intros acc.
  - change (Nat.iter 0 Decimal.D0 Decimal.Nil) with Decimal.Nil.
    cbn [Pos.of_uint_acc Z.of_nat]. now rewrite Z.pow_0_r, Z.mul_1_r.
  - change (Nat.iter (S k) Decimal.D0 Decimal.Nil)
      with (Decimal.D0 (Nat.iter k Decimal.D0 Decimal.Nil)).
    cbn [Pos.of_uint_acc]. rewrite IH, Nat2Z.inj_succ, Z.pow_succ_r
      by apply Nat2Z.is_nonneg.
    rewrite Pos2Z.inj_mul. ring.
Qed.

(** [ten_pow_4300] is the power it is named after. *)
Lemma ten_pow_4300_value : ten_pow_4300 = (10 ^ 4300)%Z.
Proof.
  unfold ten_pow_4300.
  change (Z.of_int
            (Decimal.Pos
               (Decimal.D1 (Nat.iter 4300 Decimal.D0 Decimal.Nil))))
    with (Z.pos (Pos.of_uint_acc (Nat.iter 4300 Decimal.D0 Decimal.Nil) 1)).
  rewrite of_uint_acc_zeros.
  change (Z.of_nat 4300) with 4300%Z. apply Z.mul_1_l.
Qed.

(** The decimal form of [ten_pow_4300] has 4301 digits. *)
Lemma ten_pow_4300_oversized : section_fits (Some ten_pow_4300) = false.
Proof.
  unfold section_fits, ten_pow_4300.
  rewrite Z.abs_eq by apply N2Z.is_nonneg.
  unfold str_int. rewrite DecimalZ.to_of.
  vm_compute. reflexivity.
Qed.

Lemma bind_fst_returned {A B} (c : M A) (k : A -> M B) tr a :
  fst (c tr) = Returned a ->
  bind c k tr = k a (snd (c tr)).
Proof. unfold bind. destruct (c tr) as [[x | e] tr']; simpl; congruence. Qed.

End ExecFacts.

(** ** The allow-lists *)

Module ValidFacts.

Import SpecWords.

Lemma Matches_similar r pre m post :
  Matches r pre m post -> forall r', similar r r' -> Matches r' pre m post.
Proof.
  induction 1 as [post | pre post E | cs pre c post E | a pre post
                 | r1 r2 pre m1 m2 post _ IH1 _ IH2
                 | r pre post
                 | r pre m1 m2 post _ IH1 H2 IH2]; intros r' Hs;
    destruct r'; simpl in Hs; try contradiction.
  - constructor.
  - now constructor.
  - constructor. now rewrite <- Hs.
  - subst. constructor.
  - destruct Hs as [Hs1 Hs2]. apply MSeq; [now apply IH1 | now apply IH2].
  - constructor.
  - apply MStarS; [now apply IH1 | now apply (IH2 (Star r'))].
Qed.

Lemma topic_patterns_similar : similar TOPIC_PATTERN ALLOWED_TOPIC_INPUT.
Proof.
  cbn [similar TOPIC_PATTERN ALLOWED_TOPIC_INPUT Plus].
  assert (H1 : forall c,
    set_mem [Range "A" "Z"; Range "a" "z"; Range "0" "9"; Single "_"; Single "-"] c
    = set_mem [Range "a" "z"; Range "A" "Z"; Range "0" "9"; Single "_"; Single "-"] c).
  { intros c. cbn [set_mem existsb].
    destruct (item_mem (Range "A" "Z") c), (item_mem (Range "a" "z") c);
      reflexivity. }
  assert (H2 : forall c,
    set_mem [Range "A" "Z"; Range "a" "z"; Range "0" "9"; Single "_"] c
    = set_mem [Range "a" "z"; Range "A" "Z"; Range "0" "9"; Single "_"] c).
  { intros c. cbn [set_mem existsb].
    destruct (item_mem (Range "A" "Z") c), (item_mem (Range "a" "z") c);
      reflexivity. }
  repeat split; auto.
Qed.

(** A string with a character outside a pattern's alphabet does not match. *)
Lemma fullmatch_outside r s c :
  In c s -> alphabet r c = false -> fullmatch r s = false.
Proof.
  intros Hin Hc. destruct (fullmatch r s) eqn:E; [|reflexivity].
  rewrite (ReFacts.fullmatch_alphabet r s c E Hin) in Hc. discriminate.
Qed.

Lemma metachar_outside_topic c :
  In c shell_metachars -> alphabet ALLOWED_TOPIC_INPUT c = false.
Proof.
  intros H. cbv [shell_metachars List.map app] in H.
  repeat (destruct H as [<- | H]; [vm_compute; reflexivity|]).
  destruct H.
Qed.

Lemma search_allowed_in_set c :
  search_allowed c = true ->
  alphabet ALLOWED_SEARCH_INPUT c = true /\
  set_mem [Range "a" "z"; Range "A" "Z"; Range "0" "9"; Space;
           Single "."; Single ","; Single ":"; Single "/";
           Single "'"; Single "034"; Single "("; Single ")";
           Single "["; Single "]"; Single "{"; Single "}";
           Single "*"; Single "+"; Single "?"; Single "|";
           Single "^"; Single "$"; Single "_"; Single "-"] c = true.
Proof.
  intros H.
  assert (G : set_mem [Range "a" "z"; Range "A" "Z"; Range "0" "9"; Space;
           Single "."; Single ","; Single ":"; Single "/";
           Single "'"; Single "034"; Single "("; Single ")";
           Single "["; Single "]"; Single "{"; Single "}";
           Single "*"; Single "+"; Single "?"; Single "|";
           Single "^"; Single "$"; Single "_"; Single "-"] c = true).
  { unfold search_allowed, is_letter, is_digit, search_punctuation in H.
    cbn [List.map existsb] in H.
    cbn [set_mem existsb item_mem].
    repeat match type of H with
           | (_ || _)%bool = true =>
               apply orb_true_iff in H; destruct H as [H | H]
           end;
      try discriminate H;
      rewrite H; repeat (rewrite orb_true_l || rewrite orb_true_r);
      reflexivity. }
  split; [|exact G].
  cbn [alphabet ALLOWED_SEARCH_INPUT Plus]. rewrite G. reflexivity.
Qed.

End ValidFacts.

(** ** The claims *)

Import SpecWords.

(** C1: a page name that contains one of the shell metacharacters
    [; | & $ ` ( ) < >] or a newline makes [get_manpage] return an
    [InputValidationError] for that input, and no process is launched. *)
Theorem get_manpage_rejects_shell_metachars
  (run : list pystr -> outcome CompletedProcess) (page : pystr)
  (section : option Z) (tr : list event) (c : N) :
  In c shell_metachars -> In c page ->
  (exists note,
     fst (get_manpage run page section tr)
     = Returned (mkManResult
                   (IsInputValidationError (mkInputValidationError page note))))
  /\ launches (snd (get_manpage run page section tr)) = launches tr.
Proof.
  intros Hc Hin.
  assert (Hv : validate_topic page = false).
  { unfold validate_topic. eapply ValidFacts.fullmatch_outside; [exact Hin|].
    now apply ValidFacts.metachar_outside_topic. }
  unfold get_manpage. rewrite Hv. cbn [negb].
  unfold bind, LOG_error, emit, ret. cbn [fst snd]. split.
  - eexists. reflexivity.
  - rewrite StrFacts.launches_app. simpl. now rewrite app_nil_r.
Qed.

Lemma get_manpage_rejects_shell_metachars_witness :
  (exists note,
     fst (get_manpage (completes 0 (lit "ok") []) (lit "$(reboot)") None [])
     = Returned (mkManResult
                   (IsInputValidationError
                      (mkInputValidationError (lit "$(reboot)") note))))
  /\ launches (snd (get_manpage (completes 0 (lit "ok") [])
                      (lit "$(reboot)") None [])) = launches [].
Proof.
  apply (get_manpage_rejects_shell_metachars
           (completes 0 (lit "ok") []) (lit "$(reboot)") None [] (chr "$")).
  - vm_compute. do 3 right. left. reflexivity.
  - vm_compute. left. reflexivity.
Defined.

(** C3: [validate_topic] accepts every string that the pattern
    [^[A-Za-z0-9_-]+(\.[A-Za-z0-9_]+)*$] matches from start to end, and
    rejects the empty string and every string that contains a space. *)
Theorem validate_topic_spec (s : pystr) :
  (Matches TOPIC_PATTERN [] s [] -> validate_topic s = true) /\
  (s = [] -> validate_topic s = false) /\
  (In (chr " ") s -> validate_topic s = false).
Proof.
  split; [|split].
  - intros H. unfold validate_topic. apply ReFacts.fullmatch_iff.
    eapply ValidFacts.Matches_similar; [exact H|].
    apply ValidFacts.topic_patterns_similar.
  - intros ->. reflexivity.
  - intros H. unfold validate_topic.
    eapply ValidFacts.fullmatch_outside; [exact H | reflexivity].
Qed.

Lemma validate_topic_spec_witness :
  validate_topic (lit "bash.1.gz") = true /\
  validate_topic [] = false /\
  validate_topic (lit "page with spaces") = false.
Proof.
  split; [|split].
  - apply (proj1 (validate_topic_spec (lit "bash.1.gz"))).
    apply ReFacts.fullmatch_iff. vm_compute. reflexivity.
  - apply (proj1 (proj2 (validate_topic_spec []))). reflexivity.
  - apply (proj2 (proj2 (validate_topic_spec (lit "page with spaces")))).
    vm_compute. do 4 right. left. reflexivity.
Defined.

(** C4: [validate_search_query] accepts every string of length at least 1
    made only of letters, digits, white space and the punctuation
    [. , : / ' (double quote) ( ) [ ] { } * + ? | ^ $ _ -]; it rejects every
    string that contains a backtick or a semicolon, and the empty string. *)
Theorem validate_search_query_spec (s : pystr) :
  ((1 <= List.length s)%nat ->
   (forall c, In c s -> search_allowed c = true) ->
   validate_search_query s = true) /\
  (In (chr "`") s \/ In (chr ";") s -> validate_search_query s = false) /\
  (s = [] -> validate_search_query s = false).
Proof.
  split; [|split].
  - intros Hlen Hall. unfold validate_search_query.
    apply ReFacts.fullmatch_iff. unfold ALLOWED_SEARCH_INPUT.
    change s with ([] ++ s). apply MSeq; [constructor|].
    rewrite <- (app_nil_r s) at 1. apply MSeq.
    + apply ReFacts.Matches_plus_chars.
      * destruct s; [simpl in Hlen; lia | discriminate].
      * intros c Hc. now apply ValidFacts.search_allowed_in_set, Hall.
    + now constructor.
  - intros [H | H]; unfold validate_search_query;
      (eapply ValidFacts.fullmatch_outside; [exact H | reflexivity]).
  - intros ->. reflexivity.
Qed.

Lemma validate_search_query_spec_witness :
  validate_search_query (lit "network.*(socket|bind)") = true /\
  validate_search_query (lit "`reboot`") = false /\
  validate_search_query (lit "search; ls") = false /\
  validate_search_query [] = false.
Proof.
  split; [|split; [|split]].
  - apply (proj1 (validate_search_query_spec (lit "network.*(socket|bind)"))).
    + vm_compute. lia.
    + intros c Hc. vm_compute in Hc.
      repeat (destruct Hc as [<- | Hc]; [vm_compute; reflexivity|]).
      destruct Hc.
  - apply (proj1 (proj2 (validate_search_query_spec (lit "`reboot`")))).
    left. vm_compute. left. reflexivity.
  - apply (proj1 (proj2 (validate_search_query_spec (lit "search; ls")))).
    right. vm_compute. do 6 right. left. reflexivity.
  - apply (proj2 (proj2 (validate_search_query_spec []))). reflexivity.
Defined.

(** C2, as the code has it: for every query, and for every page with a
    section that is absent or has at most 4300 decimal digits, when every
    launch completes, times out or fails with an [Exception],
    [execute_call] and both tools return (they do not raise): a failed
    launch becomes a [ManError] with return code -1 and empty streams, and
    the envelope returned holds exactly one variant. *)
Theorem no_unhandled_fault
  (run : list pystr -> outcome CompletedProcess) (tr : list event) :
  (forall args, modelled_outcome (run args) = true) ->
  (forall args, exists r, fst (execute_call run args tr) = Returned r) /\
  (forall args ex, run args = Raised ex ->
     exists note, fst (execute_call run args tr)
                  = Returned (inl (mkManError [] [] (-1) note))) /\
  (forall query, exists env,
     fst (search_descriptions run query tr) = Returned env /\
     holds_one_variant env) /\
  (forall page section,
     section_fits section = true ->
     exists env,
       fst (get_manpage run page section tr) = Returned env /\
       holds_one_variant env).
Proof.
  intros Hrun.
  assert (Hraise : forall args ex tr', run args = Raised ex ->
            exists note, fst (execute_call run args tr')
                         = Returned (inl (mkManError [] [] (-1) note))).
  { intros args ex tr' E. specialize (Hrun args). rewrite E in Hrun.
    unfold modelled_outcome, isinstance in Hrun.
    destruct (exn_class ex) eqn:Hc; [| |discriminate].
    - eexists. apply ExecFacts.execute_call_timeout; [exact E | exact Hc].
    - eexists. apply ExecFacts.execute_call_exception; [exact E | exact Hc]. }
  assert (Hexec : forall args tr', exists r,
            fst (execute_call run args tr') = Returned r).
  { intros args tr'. destruct (run args) as [cp | ex] eqn:E.
    - destruct (ExecFacts.execute_call_completed run args cp tr' E)
        as [H | [note H]]; eexists; exact H.
    - destruct (Hraise args ex tr' E) as [note H]. eexists; exact H. }
  repeat split.
  - intros args. apply Hexec.
  - intros args ex. apply Hraise.
  - intros query. unfold search_descriptions.
    destruct (validate_search_query query); cbn [negb].
    + destruct (Hexec [lit "man"; lit "-k"; query] tr) as [r Hr].
      rewrite (ExecFacts.bind_fst_returned _ _ _ _ Hr).
      destruct r as [err | out]; eexists; split; reflexivity.
    + eexists; split; reflexivity.
  - intros page section Hf.
    destruct (validate_topic page) eqn:Hv.
    + rewrite ExecFacts.get_manpage_valid by assumption.
      match goal with
      | |- context [execute_call run ?a] =>
          destruct (Hexec a tr) as [r Hr]
      end.
      rewrite (ExecFacts.bind_fst_returned _ _ _ _ Hr).
      destruct r as [err | out]; eexists; split; reflexivity.
    + unfold get_manpage. rewrite Hv. eexists; split; reflexivity.
Qed.

Lemma no_unhandled_fault_witness :
  exists env,
    fst (get_manpage (raises Exception (lit "[Errno 2] No such file or directory: 'man'"))
           (lit "ls") None []) = Returned env /\
    holds_one_variant env.
Proof.
  exact (proj2 (proj2 (proj2
           (no_unhandled_fault
              (raises Exception (lit "[Errno 2] No such file or directory: 'man'"))
              [] (fun _ => eq_refl))))
         (lit "ls") None eq_refl).
Defined.

(** C2 as stated fails: the page [ls] is valid and the process would
    complete, but with the section [10**4300] the conversion [str(section)]
    raises a [ValueError] that leaves [get_manpage]; nothing is logged or
    launched. *)
Lemma no_unhandled_fault_counterexample :
  validate_topic (lit "ls") = true /\
  (forall args, modelled_outcome (completes 0 (lit "ok") [] args) = true) /\
  get_manpage (completes 0 (lit "ok") []) (lit "ls") (Some ten_pow_4300) []
  = (Raised ValueError_int_str, []).
Proof.
  split; [reflexivity|]. split; [intros args; reflexivity|].
  apply ExecFacts.get_manpage_oversized;
    [reflexivity | apply ExecFacts.ten_pow_4300_oversized].
Qed.

(** C5: when the launch times out, [execute_call] returns a [ManError] with
    return code -1, empty stdout and stderr, and the note
    [Timeout exception <cause>.], which names the timeout and holds the
    text of the exception. *)
Theorem execute_call_timeout_error
  (run : list pystr -> outcome CompletedProcess) (args : list pystr)
  (ex : exn) (tr : list event) :
  run args = Raised ex ->
  exn_class ex = TimeoutExpired ->
  exists err,
    fst (execute_call run args tr) = Returned (inl err) /\
    me_return_code err = (-1)%Z /\
    me_stdout err = [] /\
    me_stderr err = [] /\
    me_note err = lit "Timeout exception " ++ exn_str ex ++ lit "." /\
    contains (lit "Timeout") (me_note err) = true /\
    contains (exn_str ex) (me_note err) = true.
Proof.
  intros Hrun Hc. eexists. split.
  - apply (ExecFacts.execute_call_timeout run args ex tr Hrun Hc).
  - cbn [me_return_code me_stdout me_stderr me_note].
    do 4 (split; [reflexivity|]). split.
    + apply StrFacts.contains_iff.
      exists [], (lit " exception " ++ exn_str ex ++ lit "."). reflexivity.
    + apply StrFacts.contains_self_app.
Qed.

Lemma execute_call_timeout_error_witness :
  exists err,
    fst (execute_call
           (raises TimeoutExpired
              (lit "Command '['man', 'ls']' timed out after 5 seconds"))
           [lit "man"; lit "ls"] []) = Returned (inl err) /\
    me_return_code err = (-1)%Z /\
    me_stdout err = [] /\
    me_stderr err = [] /\
    me_note err
    = lit "Timeout exception Command '['man', 'ls']' timed out after 5 seconds." /\
    contains (lit "Timeout") (me_note err) = true /\
    contains (lit "Command '['man', 'ls']' timed out after 5 seconds")
      (me_note err) = true.
Proof.
  exact (execute_call_timeout_error
           (raises TimeoutExpired
              (lit "Command '['man', 'ls']' timed out after 5 seconds"))
           [lit "man"; lit "ls"]
           (mkExn TimeoutExpired
              (lit "Command '['man', 'ls']' timed out after 5 seconds"))
           [] eq_refl eq_refl).
Defined.

(** C6: for a valid page name (and a section that [str] can print: absent
    or of at most 4300 digits), when the process completes with exit code
    0, empty stderr and a stdout without [No manual entry for ],
    [execute_call] hands back the completed process and [get_manpage]
    returns a [ManPage] whose text is that stdout, unchanged. *)
Theorem get_manpage_page_text
  (run : list pystr -> outcome CompletedProcess) (page : pystr)
  (section : option Z) (out : pystr) (tr : list event) :
  validate_topic page = true ->
  section_fits section = true ->
  (forall args, run args = completes 0 out [] args) ->
  contains (lit "No manual entry for ") out = false ->
  (forall args, fst (execute_call run args tr)
                = Returned (inr (mkCompletedProcess args 0 out []))) /\
  fst (get_manpage run page section tr)
  = Returned (mkManResult (IsManPage (mkManPage out))).
Proof.
  intros Hv Hf Hrun Hout.
  assert (Hexec : forall args tr',
            fst (execute_call run args tr')
            = Returned (inr (mkCompletedProcess args 0 out []))).
  { intros args tr'. apply ExecFacts.execute_call_success;
      [apply Hrun | reflexivity | reflexivity | exact Hout]. }
  split; [intros args; apply Hexec|].
  rewrite ExecFacts.get_manpage_valid by assumption.
  rewrite (ExecFacts.bind_fst_returned _ _ _ _ (Hexec _ tr)).
  reflexivity.
Qed.

Lemma get_manpage_page_text_witness :
  (forall args, fst (execute_call (completes 0 (lit "ok") []) args [])
                = Returned (inr (mkCompletedProcess args 0 (lit "ok") []))) /\
  fst (get_manpage (completes 0 (lit "ok") []) (lit "ls") None [])
  = Returned (mkManResult (IsManPage (mkManPage (lit "ok")))).
Proof.
  exact (get_manpage_page_text (completes 0 (lit "ok") []) (lit "ls") None
           (lit "ok") [] eq_refl eq_refl (fun _ => eq_refl) eq_refl).
Defined.

(** C7: when the process completes with exit code 1 and a stdout that
    contains [No manual entry for foo], [get_manpage] of [foo] (with no
    section, or one that [str] can print) returns a
    [ManError] with return code 1 and the captured streams, whose note
    contains [No manual entry for] and names the non-zero return code. *)
Theorem get_manpage_no_manual_entry
  (run : list pystr -> outcome CompletedProcess) (section : option Z)
  (out err : pystr) (tr : list event) :
  section_fits section = true ->
  (forall args, run args = completes 1 out err args) ->
  contains (lit "No manual entry for foo") out = true ->
  exists e,
    fst (get_manpage run (lit "foo") section tr)
    = Returned (mkManResult (IsManError e)) /\
    me_return_code e = 1%Z /\
    me_stdout e = out /\
    me_stderr e = err /\
    contains (lit "No manual entry for") (me_note e) = true /\
    contains (lit "Non zero return code `1`") (me_note e) = true.
Proof.
  intros Hf Hrun Hout.
  assert (Hm : contains (lit "No manual entry for ") out = true).
  { apply (StrFacts.contains_prefix _ (lit "foo")). exact Hout. }
  assert (Hm' : contains (lit "No manual entry for") out = true).
  { apply (StrFacts.contains_prefix _ (lit " foo")). exact Hout. }
  rewrite ExecFacts.get_manpage_valid by (reflexivity || exact Hf).
  set (pre := if str_truthy err
              then [] ++ lit "Unexpected error encountered: " ++ err ++ [10%N]
              else []).
  set (note := (pre ++ out ++ [10%N])
               ++ lit "Non zero return code `" ++ str_int 1 ++ lit "`" ++ [10%N]).
  assert (Hexec : forall args,
            fst (execute_call run args tr)
            = Returned (inl (mkManError out err 1 note))).
  { intros args. run_exec. rewrite Hrun. unfold completes.
    cbn [stdout stderr returncode fst]. rewrite Hm.
    change (negb (1 =? 0)%Z) with true. cbv iota. fold pre. fold note.
    assert (Ht : str_truthy note = true).
    { unfold note. destruct (pre ++ out ++ [10%N]); reflexivity. }
    rewrite Ht. reflexivity. }
  rewrite (ExecFacts.bind_fst_returned _ _ _ _ (Hexec _)).
  exists (mkManError out err 1 note). cbn [fst ret me_return_code me_stdout me_stderr me_note].
  do 4 (split; [reflexivity|]). split.
  - unfold note. rewrite <- !app_assoc.
    apply StrFacts.contains_app. exact Hm'.
  - apply StrFacts.contains_iff. exists (pre ++ out ++ [10%N]), [10%N].
    reflexivity.
Qed.

Lemma get_manpage_no_manual_entry_witness :
  exists e,
    fst (get_manpage (completes 1 (lit "No manual entry for foo") [])
           (lit "foo") None [])
    = Returned (mkManResult (IsManError e)) /\
    me_return_code e = 1%Z /\
    me_stdout e = lit "No manual entry for foo" /\
    me_stderr e = [] /\
    contains (lit "No manual entry for") (me_note e) = true /\
    contains (lit "Non zero return code `1`") (me_note e) = true.
Proof.
  exact (get_manpage_no_manual_entry
           (completes 1 (lit "No manual entry for foo") []) None
           (lit "No manual entry for foo") [] [] eq_refl
           (fun _ => eq_refl) eq_refl).
Defined.



(** C9: for a valid query, when the process completes with exit code 0,
    empty stderr and a stdout without [No manual entry for ],
    [search_descriptions] returns a [ManSearchResult] holding
    [stdout.splitlines()]; lines ended by a newline come back one entry per
    line, in order, duplicates and empty inner lines included, with no
    entry after the last newline; the stdout
    [ls (1) - list directory contents] followed by a newline gives that
    single line. *)
Theorem search_descriptions_lines
  (run : list pystr -> outcome CompletedProcess) (query : pystr)
  (out : pystr) (tr : list event) :
  validate_search_query query = true ->
  (forall args, run args = completes 0 out [] args) ->
  contains (lit "No manual entry for ") out = false ->
  fst (search_descriptions run query tr)
  = Returned (mkManResult (IsManSearchResult (mkManSearchResult (splitlines out)))) /\
  (forall ls,
     out = unlines ls ->
     (forall l c, In l ls -> In c l -> is_linebreak c = false) ->
     fst (search_descriptions run query tr)
     = Returned (mkManResult (IsManSearchResult (mkManSearchResult ls)))) /\
  fst (search_descriptions
         (completes 0 (lit "ls (1) - list directory contents" ++ [10%N]) [])
         (lit "list") [])
  = Returned (mkManResult
                (IsManSearchResult
                   (mkManSearchResult [lit "ls (1) - list directory contents"]))).
Proof.
  intros Hv Hrun Hout.
  assert (H : fst (search_descriptions run query tr)
              = Returned (mkManResult
                            (IsManSearchResult (mkManSearchResult (splitlines out))))).
  { unfold search_descriptions. rewrite Hv. cbn [negb].
    assert (Hexec : fst (execute_call run [lit "man"; lit "-k"; query] tr)
                    = Returned (inr (mkCompletedProcess
                                       [lit "man"; lit "-k"; query] 0 out []))).
    { apply ExecFacts.execute_call_success;
        [apply Hrun | reflexivity | reflexivity | exact Hout]. }
    rewrite (ExecFacts.bind_fst_returned _ _ _ _ Hexec). reflexivity. }
  split; [exact H | split].
  - intros ls E Hls. rewrite H, E. unfold unlines.
    now rewrite StrFacts.splitlines_unlines.
  - vm_compute. reflexivity.
Qed.

Lemma search_descriptions_lines_witness :
  fst (search_descriptions
         (completes 0 (unlines [lit "ls (1) - list"; []; lit "ls (1) - list"]) [])
         (lit "list") [])
  = Returned (mkManResult
                (IsManSearchResult
                   (mkManSearchResult [lit "ls (1) - list"; []; lit "ls (1) - list"]))).
Proof.
  apply (proj1 (proj2 (search_descriptions_lines
           (completes 0 (unlines [lit "ls (1) - list"; []; lit "ls (1) - list"]) [])
           (lit "list")
           (unlines [lit "ls (1) - list"; []; lit "ls (1) - list"]) []
           eq_refl (fun _ => eq_refl) eq_refl))
         [lit "ls (1) - list"; []; lit "ls (1) - list"] eq_refl).
  intros l c Hl Hc. vm_compute in Hl.
  destruct Hl as [<- | [<- | [<- | []]]]; vm_compute in Hc;
    repeat (destruct Hc as [<- | Hc]; [reflexivity|]); destruct Hc.
Defined.

(** C10, as the code has it: for a valid page name the section is not
    range-checked: every section other than zero whose decimal form has at
    most 4300 digits, a negative one included, is passed through unchecked
    as the token [str(section)] of the argument vector, which for a
    negative section starts with a minus sign; an absent or zero section
    is left out; a section of more than 4300 digits is not passed either:
    [str(section)] raises a [ValueError] that leaves [get_manpage] before
    anything is launched. *)
Theorem get_manpage_section_unchecked
  (run : list pystr -> outcome CompletedProcess) (page : pystr)
  (n : Z) (tr : list event) :
  validate_topic page = true ->
  (n <> 0%Z -> section_fits (Some n) = true ->
   launches (snd (get_manpage run page (Some n) tr))
   = launches tr ++ [[lit "man"; str_int n; page]]) /\
  ((n < 0)%Z -> exists digits, str_int n = chr "-" :: digits) /\
  (section_fits (Some n) = false ->
   get_manpage run page (Some n) tr = (Raised ValueError_int_str, tr)) /\
  launches (snd (get_manpage run page (Some 0%Z) tr))
  = launches tr ++ [[lit "man"; page]] /\
  launches (snd (get_manpage run page None tr))
  = launches tr ++ [[lit "man"; page]].
Proof.
  intros Hv.
  assert (H : forall s, section_fits s = true ->
            launches (snd (get_manpage run page s tr))
            = launches tr ++
              [match s with
               | Some n => if negb (n =? 0)%Z
                           then [lit "man"; str_int n; page]
                           else [lit "man"; page]
               | None => [lit "man"; page]
               end]).
  { intros s Hs. rewrite ExecFacts.get_manpage_valid by assumption.
    match goal with
    | |- context [execute_call run ?a] =>
        pose proof (ExecFacts.execute_call_launches run a tr) as Hl;
        unfold bind; destruct (execute_call run a tr) as [[[e | cp] | ex] t']
    end; cbn [snd] in Hl |- *.
    - exact Hl.
    - unfold LOG_info, emit, ret. cbn [snd].
      rewrite StrFacts.launches_app, Hl. simpl. now rewrite app_nil_r.
    - exact Hl. }
  split; [|split; [|split; [|split]]].
  - intros Hn Hf. rewrite H by exact Hf.
    destruct (Z.eqb_spec n 0) as [E | E]; [contradiction | reflexivity].
  - intros Hn. destruct n as [|p|p]; try lia.
    eexists. apply StrFacts.str_int_neg.
  - intros Hf. now apply ExecFacts.get_manpage_oversized.
  - rewrite H by reflexivity. reflexivity.
  - rewrite H by reflexivity. reflexivity.
Qed.

Lemma get_manpage_section_unchecked_witness :
  launches (snd (get_manpage (completes 0 (lit "ok") []) (lit "ls")
                   (Some (-1)%Z) []))
  = launches [] ++ [[lit "man"; str_int (-1); lit "ls"]] /\
  (exists digits, str_int (-1) = chr "-" :: digits) /\
  get_manpage (completes 0 (lit "ok") []) (lit "ls") (Some ten_pow_4300) []
  = (Raised ValueError_int_str, []).
Proof.
  split; [|split].
  - apply (proj1 (get_manpage_section_unchecked (completes 0 (lit "ok") [])
                    (lit "ls") (-1)%Z [] eq_refl)).
    + lia.
    + reflexivity.
  - apply (proj1 (proj2 (get_manpage_section_unchecked
                           (completes 0 (lit "ok") []) (lit "ls") (-1)%Z []
                           eq_refl))).
    lia.
  - apply (proj1 (proj2 (proj2 (get_manpage_section_unchecked
                                  (completes 0 (lit "ok") []) (lit "ls")
                                  ten_pow_4300 [] eq_refl)))).
    apply ExecFacts.ten_pow_4300_oversized.
Defined.

(** C10 as stated fails: the page [ls] is valid, the section -1 is
    negative, and [get_manpage] launches [man -1 ls]. *)
Lemma get_manpage_negative_section_counterexample :
  validate_topic (lit "ls") = true /\
  (-1 < 0)%Z /\
  launches (snd (get_manpage (completes 0 (lit "ok") []) (lit "ls")
                   (Some (-1)%Z) []))
  = [[lit "man"; lit "-1"; lit "ls"]] /\
  In (str_int (-1)) [lit "man"; lit "-1"; lit "ls"].
Proof.
  split; [reflexivity|]. split; [lia|]. split; [reflexivity|].
  right. left. reflexivity.
Qed.

(** * Further properties of the source *)

(** ** Shape of the accepted topics *)

Module TopicFacts.

Lemma Matches_Bol_inv pre m post : Matches Bol pre m post -> m = [].
Proof. inversion 1; reflexivity. Qed.

Lemma Matches_Eol_inv pre m post : Matches Eol pre m post -> m = [].
Proof. inversion 1; reflexivity. Qed.

Lemma Matches_plus_chars_inv cs pre m post :
  Matches (Plus (Chars cs)) pre m post -> run_of cs m.
Proof.
  intros H. split.
  - inversion H as [| | | | r1 r2 p m1 m2 q H1 H2 | |]; subst.
    inversion H1; subst. discriminate.
  - intros c Hc. pose proof (ReFacts.Matches_alphabet _ _ _ _ H c Hc) as Ha.
    cbn [alphabet Plus] in Ha. now rewrite orb_diag in Ha.
Qed.

Lemma Matches_star_segs cs pre m post :
  Matches (Star (Seq (Char ".") (Plus (Chars cs)))) pre m post ->
  exists segs,
    m = List.concat (List.map (fun g => chr "." :: g) segs) /\
    Forall (run_of cs) segs.
Proof.
  remember (Star (Seq (Char ".") (Plus (Chars cs)))) as r eqn:Er.
  intros H. induction H as [post | pre post E | cs' pre c post E | a pre post
                 | r1 r2 pre m1 m2 post _ _ _ _
                 | r pre post
                 | r pre m1 m2 post H1 _ _ IH2]; try discriminate Er.
  - exists []. split; [reflexivity | constructor].
  - injection Er as ->. destruct (IH2 eq_refl) as [segs [-> Hsegs]].
    inversion H1 as [| | | | r1 r2 p d g q Hd Hg | |]; subst.
    inversion Hd; subst.
    exists (g :: segs). split; [reflexivity|].
    constructor; [|exact Hsegs].
    eapply Matches_plus_chars_inv; exact Hg.
Qed.

Lemma Matches_segs_star cs segs :
  Forall (run_of cs) segs ->
  forall pre post,
    Matches (Star (Seq (Char ".") (Plus (Chars cs)))) pre
      (List.concat (List.map (fun g => chr "." :: g) segs)) post.
Proof.
  induction 1 as [|g segs [Hne Hg] _ IH]; intros pre post.
  - constructor.
  - cbn [List.map List.concat].
    change ((chr "." :: g) ++ ?t) with (([chr "."] ++ g) ++ t).
    apply MStarS; [|apply IH].
    apply MSeq; [constructor|].
    now apply ReFacts.Matches_plus_chars.
Qed.

(** [validate_topic] accepts exactly a non-empty first segment of
    [topic_first] followed by dotted non-empty segments of [topic_next]. *)
Lemma validate_topic_iff_dotted s :
  validate_topic s = true <->
  exists head segs,
    s = dotted head segs /\ run_of topic_first head /\
    Forall (run_of topic_next) segs.
Proof.
  unfold validate_topic. rewrite ReFacts.fullmatch_iff. split.
  - intros H. unfold ALLOWED_TOPIC_INPUT in H.
    inversion H as [| | | | r1 r2 p m1 m2 q H1 H2 | |]; subst.
    apply Matches_Bol_inv in H1. subst m1.
    inversion H2 as [| | | | r1 r2 p m1 m3 q H3 H4 | |]; subst.
    inversion H4 as [| | | | r1 r2 p m4 m5 q H5 H6 | |]; subst.
    apply Matches_Eol_inv in H6. subst m5.
    apply Matches_plus_chars_inv in H3.
    apply Matches_star_segs in H5. destruct H5 as [segs [-> Hsegs]].
    exists m1, segs. unfold dotted. cbn [app].
    rewrite app_nil_r. auto.
  - intros [head [segs [-> [[Hne Hhead] Hsegs]]]].
    unfold ALLOWED_TOPIC_INPUT, dotted.
    change (head ++ ?t) with ([] ++ head ++ t). apply MSeq; [constructor|].
    apply MSeq; [now apply ReFacts.Matches_plus_chars|].
    rewrite <- (app_nil_r (List.concat _)).
    apply MSeq; [now apply Matches_segs_star | now constructor].
Qed.

End TopicFacts.

Module TopicDots.

Import TopicFacts.

Lemma segs_chars cs segs :
  Forall (run_of cs) segs ->
  forall c, In c (List.concat (List.map (fun g => chr "." :: g) segs)) ->
    c = chr "." \/ set_mem cs c = true.
Proof.
  induction 1 as [|g segs [_ Hg] _ IH]; intros c Hc.
  - destruct Hc.
  - cbn [List.map List.concat] in Hc. destruct Hc as [<- | Hc]; [now left|].
    apply in_app_or in Hc. destruct Hc as [Hc | Hc]; [right; now apply Hg | now apply IH].
Qed.

Lemma segs_after_dot segs :
  Forall (run_of topic_next) segs ->
  forall l b,
    List.concat (List.map (fun g => chr "." :: g) segs) = l ++ chr "." :: b ->
    exists c b', b = c :: b' /\ set_mem topic_next c = true.
Proof.
  induction 1 as [|g segs [Hne Hg] Hsegs IH]; intros l b E.
  - destruct l; discriminate E.
  - cbn [List.map List.concat] in E. destruct l as [|x l].
    + injection E as E. destruct g as [|c g']; [congruence|].
      exists c. eexists. split; [symmetry; exact E|].
      apply Hg. now left.
    + injection E as _ E. apply app_eq_app in E.
      destruct E as [l2 [[Eg E2] | [El E2]]].
      * destruct l2 as [|y l2].
        -- apply (IH [] b). symmetry. exact E2.
        -- injection E2 as <- _.
           assert (Hd : set_mem topic_next (chr ".") = true).
           { apply Hg. rewrite Eg. apply in_or_app. right. now left. }
           discriminate Hd.
      * apply (IH l2 b). exact E2.
Qed.

(** In an accepted topic a dot is never first, is always followed by a
    character of [topic_next], and no hyphen comes after it. *)
Lemma valid_topic_dots s a b :
  validate_topic s = true -> s = a ++ chr "." :: b ->
  a <> [] /\
  (exists c b', b = c :: b' /\ set_mem topic_next c = true) /\
  ~ In (chr "-") b.
Proof.
  intros Hv E. apply validate_topic_iff_dotted in Hv.
  destruct Hv as [head [segs [Es [[Hne Hhead] Hsegs]]]].
  rewrite Es in E. unfold dotted in E.
  assert (Htail : forall l, List.concat (List.map (fun g => chr "." :: g) segs)
                            = l ++ chr "." :: b ->
            (exists c b', b = c :: b' /\ set_mem topic_next c = true) /\
            ~ In (chr "-") b).
  { intros l El. split; [now apply (segs_after_dot segs Hsegs l)|].
    intros Hin.
    destruct (segs_chars topic_next segs Hsegs (chr "-")) as [Hd | Hd];
      [rewrite El; apply in_or_app; right; now right | discriminate Hd | discriminate Hd]. }
  apply app_eq_app in E. destruct E as [l [[Eh E2] | [Ea E2]]].
  - destruct l as [|y l].
    + rewrite app_nil_r in Eh. subst a. split; [exact Hne|].
      apply (Htail []). symmetry. exact E2.
    + injection E2 as <- _.
      assert (Hd : set_mem topic_first (chr ".") = true).
      { apply Hhead. rewrite Eh. apply in_or_app. right. now left. }
      discriminate Hd.
  - split.
    + rewrite Ea. destruct head; [congruence | discriminate].
    + now apply (Htail l).
Qed.

End TopicDots.

(** ** The accepted search queries *)

Module SearchFacts.

Lemma search_alphabet c :
  alphabet ALLOWED_SEARCH_INPUT c = set_mem search_set c.
Proof.
  cbn [alphabet ALLOWED_SEARCH_INPUT Plus]. fold search_set.
  destruct (set_mem search_set c); reflexivity.
Qed.

(** [validate_search_query] accepts exactly the non-empty strings whose
    characters all belong to the set of the pattern. *)
Lemma validate_search_query_iff s :
  validate_search_query s = true <->
  s <> [] /\ forall c, In c s -> set_mem search_set c = true.
Proof.
  split.
  - intros H. split.
    + intros ->. discriminate H.
    + intros c Hc. rewrite <- search_alphabet.
      exact (ReFacts.fullmatch_alphabet _ _ _ H Hc).
  - intros [Hne Hall]. unfold validate_search_query.
    apply ReFacts.fullmatch_iff. unfold ALLOWED_SEARCH_INPUT.
    change s with ([] ++ s). apply MSeq; [constructor|].
    rewrite <- (app_nil_r s) at 1. apply MSeq.
    + now apply ReFacts.Matches_plus_chars.
    + now constructor.
Qed.

Lemma topic_alphabet_in_search_set c :
  alphabet ALLOWED_TOPIC_INPUT c = true -> set_mem search_set c = true.
Proof.
  intros H. cbn [alphabet ALLOWED_TOPIC_INPUT Plus set_mem existsb item_mem] in H.
  cbn [search_set set_mem existsb item_mem].
  repeat match type of H with
         | (_ || _)%bool = true =>
             apply orb_true_iff in H; destruct H as [H | H]
         end;
    try discriminate H;
    rewrite H; repeat (rewrite orb_true_l || rewrite orb_true_r);
    reflexivity.
Qed.

End SearchFacts.

(** ** Traces and outcomes of the executor *)

Module TraceFacts.

Lemma error_logs_app a b : error_logs (a ++ b) = error_logs a ++ error_logs b.
Proof.
  induction a as [|e a IH]; simpl; [reflexivity|].
  destruct e; simpl; now rewrite IH.
Qed.

Lemma launch_events_app a b :
  launch_events (a ++ b) = launch_events a ++ launch_events b.
Proof.
  induction a as [|e a IH]; simpl; [reflexivity|].
  destruct e; simpl; now rewrite IH.
Qed.

Lemma clean_iff cp :
  clean cp = true <->
  returncode cp = 0%Z /\ stderr cp = [] /\
  contains (lit "No manual entry for ") (stdout cp) = false.
Proof.
  unfold clean. rewrite !andb_true_iff, !negb_true_iff, Z.eqb_eq.
  destruct (stderr cp); simpl; intuition congruence.
Qed.

(** The whole outcome of [execute_call], by what the launch does: the
    call is logged, the process is launched once with timeout 5, and an
    error record follows exactly when a [ManError] is returned. *)
Lemma execute_call_cases run args tr :
  exists m1,
    match run args with
    | Returned cp =>
        if clean cp then
          execute_call run args tr
          = (Returned (inr cp), tr ++ [LogInfo m1; SpRun args 5])
        else
          exists note m2,
            note <> [] /\
            execute_call run args tr
            = (Returned (inl (mkManError (stdout cp) (stderr cp)
                                (returncode cp) note)),
               tr ++ [LogInfo m1; SpRun args 5; LogError m2])
    | Raised ex =>
        match exn_class ex with
        | BaseException =>
            execute_call run args tr
            = (Raised ex, tr ++ [LogInfo m1; SpRun args 5])
        | _ =>
            exists note m2,
              execute_call run args tr
              = (Returned (inl (mkManError [] [] (-1) note)),
                 tr ++ [LogInfo m1; SpRun args 5; LogError m2])
        end
    end.
Proof.
  eexists. run_exec. destruct (run args) as [cp | ex].
  - unfold clean. destruct cp as [a rc out err]. cbn [returncode stdout stderr].
    destruct err as [|e1 err]; destruct out as [|o1 out];
      destruct (contains _ _); destruct (rc =? 0)%Z;
      simpl;
      try (rewrite <- !app_assoc; reflexivity);
      (do 2 eexists; split; [|rewrite <- !app_assoc; simpl; reflexivity];
       discriminate).
  - unfold isinstance. destruct (exn_class ex); cbn [issubclass];
      try (do 2 eexists); rewrite <- !app_assoc; reflexivity.
Qed.

End TraceFacts.

(** ** Outcomes of the two tools *)

Module ToolFacts.

Import TraceFacts.

Lemma get_manpage_cases run page section tr :
  if validate_topic page then
    if section_fits section then
    exists m1,
      match run (manpage_args page section) with
      | Returned cp =>
          if clean cp then
            exists m3,
              get_manpage run page section tr
              = (Returned (mkManResult (IsManPage (mkManPage (stdout cp)))),
                 tr ++ [LogInfo m1; SpRun (manpage_args page section) 5;
                        LogInfo m3])
          else
            exists note m2,
              note <> [] /\
              get_manpage run page section tr
              = (Returned (mkManResult
                             (IsManError (mkManError (stdout cp) (stderr cp)
                                            (returncode cp) note))),
                 tr ++ [LogInfo m1; SpRun (manpage_args page section) 5;
                        LogError m2])
      | Raised ex =>
          match exn_class ex with
          | BaseException =>
              get_manpage run page section tr
              = (Raised ex,
                 tr ++ [LogInfo m1; SpRun (manpage_args page section) 5])
          | _ =>
              exists note m2,
                get_manpage run page section tr
                = (Returned (mkManResult
                               (IsManError (mkManError [] [] (-1) note))),
                   tr ++ [LogInfo m1; SpRun (manpage_args page section) 5;
                          LogError m2])
          end
      end
    else get_manpage run page section tr = (Raised ValueError_int_str, tr)
  else
    exists note m2,
      get_manpage run page section tr
      = (Returned (mkManResult
                     (IsInputValidationError (mkInputValidationError page note))),
         tr ++ [LogError m2]).
Proof.
  destruct (validate_topic page) eqn:Hv;
    [destruct (section_fits section) eqn:Hf;
     [|now apply ExecFacts.get_manpage_oversized]|].
  - destruct (execute_call_cases run (manpage_args page section) tr) as [m1 H].
    exists m1. rewrite ExecFacts.get_manpage_valid by assumption.
    fold (manpage_args page section). unfold bind.
    destruct (run (manpage_args page section)) as [cp | ex].
    + destruct (clean cp).
      * rewrite H. unfold LOG_info, emit, ret. eexists.
        rewrite <- app_assoc. reflexivity.
      * destruct H as [note [m2 [Hn H]]]. rewrite H.
        exists note, m2. split; [exact Hn | reflexivity].
    + destruct (exn_class ex).
      * destruct H as [note [m2 H]]. rewrite H. now exists note, m2.
      * destruct H as [note [m2 H]]. rewrite H. now exists note, m2.
      * rewrite H. reflexivity.
  - unfold get_manpage. rewrite Hv. cbn [negb].
    unfold bind, LOG_error, emit, ret. do 2 eexists. reflexivity.
Qed.

Lemma search_descriptions_cases run query tr :
  if validate_search_query query then
    exists m1,
      match run [lit "man"; lit "-k"; query] with
      | Returned cp =>
          if clean cp then
            exists m3,
              search_descriptions run query tr
              = (Returned (mkManResult
                             (IsManSearchResult
                                (mkManSearchResult (splitlines (stdout cp))))),
                 tr ++ [LogInfo m1; SpRun [lit "man"; lit "-k"; query] 5;
                        LogInfo m3])
          else
            exists note m2,
              note <> [] /\
              search_descriptions run query tr
              = (Returned (mkManResult
                             (IsManError (mkManError (stdout cp) (stderr cp)
                                            (returncode cp) note))),
                 tr ++ [LogInfo m1; SpRun [lit "man"; lit "-k"; query] 5;
                        LogError m2])
      | Raised ex =>
          match exn_class ex with
          | BaseException =>
              search_descriptions run query tr
              = (Raised ex,
                 tr ++ [LogInfo m1; SpRun [lit "man"; lit "-k"; query] 5])
          | _ =>
              exists note m2,
                search_descriptions run query tr
                = (Returned (mkManResult
                               (IsManError (mkManError [] [] (-1) note))),
                   tr ++ [LogInfo m1; SpRun [lit "man"; lit "-k"; query] 5;
                          LogError m2])
          end
      end
  else
    exists note m2,
      search_descriptions run query tr
      = (Returned (mkManResult
                     (IsInputValidationError (mkInputValidationError query note))),
         tr ++ [LogError m2]).
Proof.
  destruct (validate_search_query query) eqn:Hv.
  - destruct (execute_call_cases run [lit "man"; lit "-k"; query] tr) as [m1 H].
    exists m1. unfold search_descriptions. rewrite Hv. cbn [negb]. unfold bind.
    destruct (run [lit "man"; lit "-k"; query]) as [cp | ex].
    + destruct (clean cp).
      * rewrite H. unfold LOG_info, emit, ret. eexists.
        rewrite <- app_assoc. reflexivity.
      * destruct H as [note [m2 [Hn H]]]. rewrite H.
        exists note, m2. split; [exact Hn | reflexivity].
    + destruct (exn_class ex).
      * destruct H as [note [m2 H]]. rewrite H. now exists note, m2.
      * destruct H as [note [m2 H]]. rewrite H. now exists note, m2.
      * rewrite H. reflexivity.
  - unfold search_descriptions. rewrite Hv. cbn [negb].
    unfold bind, LOG_error, emit, ret. do 2 eexists. reflexivity.
Qed.

End ToolFacts.

(** ** Line splitting *)

Module LineFacts.

Lemma splitlines_from_cons cur c rest :
  splitlines_from cur (c :: rest) =
  if is_linebreak c then
    if (c =? 13)%N then
      match rest with
      | 10%N :: rest' => rev cur :: splitlines_from [] rest'
      | _ => rev cur :: splitlines_from [] rest
      end
    else rev cur :: splitlines_from [] rest
  else splitlines_from (c :: cur) rest.
Proof.
  cbn [splitlines_from]. destruct (is_linebreak c); [|reflexivity].
  destruct (N.eqb_spec c 13) as [-> | Hc]; [reflexivity|].
  destruct c as [|p]; [reflexivity|].
  destruct p as [p|p|]; try reflexivity.
  destruct p as [p|p|]; try reflexivity.
  destruct p as [p|p|]; try reflexivity.
  destruct p as [p|p|]; try reflexivity.
  congruence.
Qed.

Lemma splitlines_from_crlf_line cur l rest :
  (forall c, In c l -> is_linebreak c = false) ->
  splitlines_from cur (l ++ 13%N :: 10%N :: rest)
  = (rev cur ++ l) :: splitlines_from [] rest.
Proof.
  revert cur. induction l as [|c l IH]; intros cur Hl.
  - simpl. now rewrite app_nil_r.
  - simpl. rewrite (Hl c (or_introl eq_refl)).
    rewrite IH by (intros x Hx; apply Hl; now right).
    simpl. now rewrite <- app_assoc.
Qed.

Lemma splitlines_unlines_crlf ls :
  (forall l c, In l ls -> In c l -> is_linebreak c = false) ->
  splitlines (unlines_crlf ls) = ls.
Proof.
  unfold splitlines, unlines_crlf. induction ls as [|l ls IH]; intros Hls.
  - reflexivity.
  - simpl. rewrite <- app_assoc. simpl.
    rewrite splitlines_from_crlf_line
      by (intros c Hc; eapply Hls; [now left | exact Hc]).
    simpl. f_equal. apply IH. intros l' c Hl' Hc.
    eapply Hls; [right; exact Hl' | exact Hc].
Qed.

Lemma splitlines_from_no_break n :
  forall cur s, (List.length s <= n)%nat ->
    (forall c, In c cur -> is_linebreak c = false) ->
    forall l c, In l (splitlines_from cur s) -> In c l ->
      is_linebreak c = false.
Proof.
  induction n as [|n IH]; intros cur s Hlen Hcur l x Hl Hx.
  - destruct s; [|simpl in Hlen; lia]. simpl in Hl.
    destruct cur; [destruct Hl|]. destruct Hl as [<- | []].
    apply Hcur. now apply in_rev.
  - destruct s as [|c rest].
    + simpl in Hl. destruct cur; [destruct Hl|]. destruct Hl as [<- | []].
      apply Hcur. now apply in_rev.
    + simpl in Hlen. rewrite splitlines_from_cons in Hl.
      assert (Hnil : forall c0 : N, In c0 [] -> is_linebreak c0 = false)
        by (intros ? []).
      assert (Hrev : l = rev cur -> is_linebreak x = false).
      { intros ->. apply Hcur. now apply in_rev. }
      destruct (is_linebreak c) eqn:Eb.
      * destruct (c =? 13)%N.
        -- destruct rest as [|d rest'].
           ++ destruct Hl as [E | Hl]; [now apply Hrev|].
              eapply (IH [] []); eauto. simpl; lia.
           ++ destruct (N.eq_dec d 10) as [-> | Hd].
              ** destruct Hl as [E | Hl]; [now apply Hrev|].
                 eapply (IH [] rest'); eauto. simpl in Hlen. lia.
              ** assert (Hl' : In l (rev cur :: splitlines_from [] (d :: rest'))).
                 { destruct d as [|p]; [exact Hl|].
                   destruct p as [p|p|]; try exact Hl.
                   destruct p as [p|p|]; try exact Hl.
                   destruct p as [p|p|]; try exact Hl.
                   destruct p as [p|p|]; try exact Hl.
                   congruence. }
                 destruct Hl' as [E | Hl']; [now apply Hrev|].
                 eapply (IH [] (d :: rest')); eauto. lia.
        -- destruct Hl as [E | Hl]; [now apply Hrev|].
           eapply (IH [] rest); eauto. lia.
      * eapply (IH (c :: cur) rest); eauto; [lia|].
        intros y [<- | Hy]; [exact Eb | now apply Hcur].
Qed.

Lemma splitlines_from_concat n :
  forall cur s, (List.length s <= n)%nat ->
    List.concat (splitlines_from cur s)
    = rev cur ++ filter (fun c => negb (is_linebreak c)) s.
Proof.
  induction n as [|n IH]; intros cur s Hlen.
  - destruct s; [|simpl in Hlen; lia]. simpl.
    destruct cur; simpl; now rewrite ?app_nil_r.
  - destruct s as [|c rest].
    + simpl. destruct cur; simpl; now rewrite ?app_nil_r.
    + simpl in Hlen. rewrite splitlines_from_cons. cbn [filter].
      destruct (is_linebreak c) eqn:Eb; cbn [negb].
      * assert (Hgen : List.concat (rev cur :: splitlines_from [] rest)
                       = rev cur ++ filter (fun c => negb (is_linebreak c)) rest).
        { cbn [List.concat]. rewrite (IH [] rest) by lia. reflexivity. }
        destruct (c =? 13)%N; [|exact Hgen].
        destruct rest as [|d rest']; [exact Hgen|].
        destruct (N.eq_dec d 10) as [-> | Hd].
        -- cbn [List.concat filter]. rewrite (IH [] rest') by (simpl in Hlen; lia).
           reflexivity.
        -- destruct d as [|p]; [exact Hgen|].
           destruct p as [p|p|]; try exact Hgen.
           destruct p as [p|p|]; try exact Hgen.
           destruct p as [p|p|]; try exact Hgen.
           destruct p as [p|p|]; exact Hgen.
      * rewrite (IH (c :: cur) rest) by lia. simpl. now rewrite <- app_assoc.
Qed.

Lemma splitlines_from_nil cur s :
  splitlines_from cur s = [] -> cur = [] /\ s = [].
Proof.
  revert cur. induction s as [|c rest IH]; intros cur H.
  - simpl in H. destruct cur; [auto | discriminate].
  - rewrite splitlines_from_cons in H.
    destruct (is_linebreak c).
    + destruct (c =? 13)%N; [destruct rest as [|[|p] rest']|]; try discriminate H.
      destruct p as [p|p|]; try discriminate H.
      destruct p as [p|p|]; try discriminate H.
      destruct p as [p|p|]; try discriminate H.
      destruct p as [p|p|]; discriminate H.
    + apply IH in H. destruct H as [H _]. discriminate H.
Qed.

End LineFacts.

(** ** Further properties: the validators *)

(** X1: [validate_search_query] accepts a string exactly when it is not
    empty and each of its characters belongs to the set of
    [ALLOWED_SEARCH_INPUT]; the order of the characters plays no part. *)
Theorem validate_search_query_exact (s : pystr) :
  validate_search_query s = true <->
  s <> [] /\ forall c, In c s -> set_mem search_set c = true.
Proof. apply SearchFacts.validate_search_query_iff. Qed.

Lemma validate_search_query_exact_witness :
  validate_search_query [chr "("; 9%N; chr "|"; 160%N] = true.
Proof.
  apply (proj2 (validate_search_query_exact [chr "("; 9%N; chr "|"; 160%N])).
  split; [discriminate|].
  intros c Hc. vm_compute in Hc.
  repeat (destruct Hc as [<- | Hc]; [vm_compute; reflexivity|]).
  destruct Hc.
Defined.

(** X2: [validate_topic] accepts a string exactly when it is a non-empty
    first segment of letters, digits, underscores and hyphens, followed by
    any number of segments that each consist of a dot and a non-empty run
    of letters, digits and underscores. *)
Theorem validate_topic_exact (s : pystr) :
  validate_topic s = true <->
  exists head segs,
    s = dotted head segs /\ run_of topic_first head /\
    Forall (run_of topic_next) segs.
Proof. apply TopicFacts.validate_topic_iff_dotted. Qed.

Lemma validate_topic_exact_witness :
  validate_topic (dotted (lit "my_script-name") [lit "1"; lit "gz"]) = true.
Proof.
  apply (proj2 (validate_topic_exact
                  (dotted (lit "my_script-name") [lit "1"; lit "gz"]))).
  exists (lit "my_script-name"), [lit "1"; lit "gz"].
  split; [reflexivity|]. split.
  - split; [discriminate|]. intros c Hc. vm_compute in Hc.
    repeat (destruct Hc as [<- | Hc]; [vm_compute; reflexivity|]).
    destruct Hc.
  - repeat constructor; try discriminate;
      intros c Hc; vm_compute in Hc;
      repeat (destruct Hc as [<- | Hc]; [vm_compute; reflexivity|]);
      destruct Hc.
Defined.

(** X3: [validate_topic] rejects a name in which some dot comes first,
    comes last, is followed by another dot, or has a hyphen anywhere after
    it. *)
Theorem validate_topic_dot_rules (a b : pystr) :
  a = [] \/ b = [] \/ (exists b', b = chr "." :: b') \/ In (chr "-") b ->
  validate_topic (a ++ chr "." :: b) = false.
Proof.
  intros H. destruct (validate_topic (a ++ chr "." :: b)) eqn:Hv;
    [|reflexivity].
  destruct (TopicDots.valid_topic_dots _ a b Hv eq_refl)
    as [Ha [[c [b' [Eb Hc]]] Hh]].
  destruct H as [H | [H | [[b'' H] | H]]].
  - contradiction.
  - rewrite H in Eb. discriminate Eb.
  - rewrite H in Eb. injection Eb as <- _. discriminate Hc.
  - contradiction.
Qed.

Lemma validate_topic_dot_rules_witness :
  validate_topic (lit "systemd" ++ chr "." :: lit "net-naming-scheme") = false.
Proof.
  apply (validate_topic_dot_rules (lit "systemd") (lit "net-naming-scheme")).
  do 3 right. vm_compute. do 3 right. left. reflexivity.
Defined.

(** X4: every page name that [validate_topic] accepts is also accepted by
    [validate_search_query]. *)
Theorem valid_topic_is_valid_query (s : pystr) :
  validate_topic s = true -> validate_search_query s = true.
Proof.
  intros H. apply SearchFacts.validate_search_query_iff. split.
  - intros ->. discriminate H.
  - intros c Hc. apply SearchFacts.topic_alphabet_in_search_set.
    exact (ReFacts.fullmatch_alphabet _ _ _ H Hc).
Qed.

Lemma valid_topic_is_valid_query_witness :
  validate_search_query (lit "bash.1.gz") = true.
Proof.
  apply (valid_topic_is_valid_query (lit "bash.1.gz")). reflexivity.
Defined.

(** X5: a name made of a hyphen followed by letters, digits, underscores
    and hyphens is a valid topic, and [get_manpage] hands it to the process
    as the argument after [man], as it stands. *)
Theorem get_manpage_hyphen_first
  (run : list pystr -> outcome CompletedProcess) (s : pystr)
  (tr : list event) :
  (forall c, In c s -> set_mem topic_first c = true) ->
  validate_topic (chr "-" :: s) = true /\
  launch_events (snd (get_manpage run (chr "-" :: s) None tr))
  = launch_events tr ++ [([lit "man"; chr "-" :: s], 5%Z)].
Proof.
  intros Hs.
  assert (Hv : validate_topic (chr "-" :: s) = true).
  { apply TopicFacts.validate_topic_iff_dotted.
    exists (chr "-" :: s), []. split; [unfold dotted; now rewrite app_nil_r|].
    split; [|constructor]. split; [discriminate|].
    intros c [<- | Hc]; [reflexivity | now apply Hs]. }
  split; [exact Hv|].
  pose proof (ToolFacts.get_manpage_cases run (chr "-" :: s) None tr) as C.
  rewrite Hv in C. cbn [section_fits] in C.
  destruct C as [m1 C]. cbn [manpage_args] in C.
  on_run C cp exc Er.
  - on_test C Ec.
    + destruct C as [m3 ->]. cbn [snd].
      rewrite TraceFacts.launch_events_app. reflexivity.
    + destruct C as [note [m2 [_ ->]]]. cbn [snd].
      rewrite TraceFacts.launch_events_app. reflexivity.
  - on_class C Ex;
      [destruct C as [note [m2 ->]]
      | destruct C as [note [m2 ->]] | rewrite C];
      cbn [snd]; rewrite TraceFacts.launch_events_app; reflexivity.
Qed.

Lemma get_manpage_hyphen_first_witness :
  validate_topic (lit "--help") = true /\
  launch_events (snd (get_manpage (completes 0 (lit "ok") []) (lit "--help")
                        None []))
  = launch_events [] ++ [([lit "man"; lit "--help"], 5%Z)].
Proof.
  apply (get_manpage_hyphen_first (completes 0 (lit "ok") []) (lit "-help") []).
  intros c Hc. vm_compute in Hc.
  repeat (destruct Hc as [<- | Hc]; [vm_compute; reflexivity|]).
  destruct Hc.
Defined.

(** ** Further properties: the executor and the tools *)

(** X6: a query that is empty or holds a character outside the set of
    [ALLOWED_SEARCH_INPUT] makes [search_descriptions] return an
    [InputValidationError] with that query and the note
    [Query contains invalid characters]; nothing is launched and one error
    record that quotes the query is logged. *)
Theorem search_descriptions_rejects
  (run : list pystr -> outcome CompletedProcess) (query : pystr)
  (tr : list event) :
  query = [] \/ (exists c, In c query /\ set_mem search_set c = false) ->
  search_descriptions run query tr
  = (Returned (mkManResult
                 (IsInputValidationError
                    (mkInputValidationError query
                       (lit "Query contains invalid characters")))),
     tr ++ [LogError (lit "Invalid input '" ++ query ++ lit "' submitted")]).
Proof.
  intros H.
  assert (Hv : validate_search_query query = false).
  { destruct (validate_search_query query) eqn:E; [|reflexivity].
    apply SearchFacts.validate_search_query_iff in E. destruct E as [Hne Hall].
    destruct H as [-> | [c [Hc Hm]]]; [congruence|].
    rewrite (Hall c Hc) in Hm. discriminate Hm. }
  unfold search_descriptions. rewrite Hv. reflexivity.
Qed.

Lemma search_descriptions_rejects_witness :
  search_descriptions (completes 0 (lit "ok") []) (lit "a&b") []
  = (Returned (mkManResult
                 (IsInputValidationError
                    (mkInputValidationError (lit "a&b")
                       (lit "Query contains invalid characters")))),
     [] ++ [LogError (lit "Invalid input '" ++ lit "a&b" ++ lit "' submitted")]).
Proof.
  apply (search_descriptions_rejects (completes 0 (lit "ok") []) (lit "a&b") []).
  right. exists (chr "&"). split; [|reflexivity].
  vm_compute. right. left. reflexivity.
Defined.

(** X7: each tool launches the process at most once and always with the
    timeout 5: [search_descriptions] launches [man -k query] exactly when
    the query is valid, [get_manpage] launches its argument vector exactly
    when the page is valid and [str] can print the section (it is absent or
    has at most 4300 digits), whatever the launch then does. *)
Theorem tools_launch_once
  (run : list pystr -> outcome CompletedProcess) (tr : list event) :
  (forall query,
     launch_events (snd (search_descriptions run query tr))
     = launch_events tr ++
       (if validate_search_query query
        then [([lit "man"; lit "-k"; query], 5%Z)] else [])) /\
  (forall page section,
     launch_events (snd (get_manpage run page section tr))
     = launch_events tr ++
       (if validate_topic page && section_fits section
        then [(manpage_args page section, 5%Z)] else [])).
Proof.
  split.
  - intros query.
    pose proof (ToolFacts.search_descriptions_cases run query tr) as C.
    on_test C Ev.
    + destruct C as [m1 C]. on_run C cp exc Er.
      * on_test C Ec.
        -- destruct C as [m3 ->]. cbn [snd].
           rewrite TraceFacts.launch_events_app. reflexivity.
        -- destruct C as [note [m2 [_ ->]]]. cbn [snd].
           rewrite TraceFacts.launch_events_app. reflexivity.
      * on_class C Ex;
          [destruct C as [note [m2 ->]]
          | destruct C as [note [m2 ->]] | rewrite C];
          cbn [snd]; rewrite TraceFacts.launch_events_app; reflexivity.
    + destruct C as [note [m2 ->]]. cbn [snd].
      rewrite TraceFacts.launch_events_app. reflexivity.
  - intros page section.
    pose proof (ToolFacts.get_manpage_cases run page section tr) as C.
    on_test C Ev; [on_test C Ef|]; cbn [andb].
    + destruct C as [m1 C]. on_run C cp exc Er.
      * on_test C Ec.
        -- destruct C as [m3 ->]. cbn [snd].
           rewrite TraceFacts.launch_events_app. reflexivity.
        -- destruct C as [note [m2 [_ ->]]]. cbn [snd].
           rewrite TraceFacts.launch_events_app. reflexivity.
      * on_class C Ex;
          [destruct C as [note [m2 ->]]
          | destruct C as [note [m2 ->]] | rewrite C];
          cbn [snd]; rewrite TraceFacts.launch_events_app; reflexivity.
    + rewrite C. cbn [snd]. now rewrite app_nil_r.
    + destruct C as [note [m2 ->]]. cbn [snd].
      rewrite TraceFacts.launch_events_app. reflexivity.
Qed.

(** X8: [execute_call] hands back the completed process exactly when the
    launch returned it with exit code 0, empty stderr and a stdout without
    [No manual entry for ]; in every other case it returns a [ManError] or
    the exception propagates. *)
Theorem execute_call_returns_process_iff
  (run : list pystr -> outcome CompletedProcess) (args : list pystr)
  (cp : CompletedProcess) (tr : list event) :
  fst (execute_call run args tr) = Returned (inr cp) <->
  run args = Returned cp /\ returncode cp = 0%Z /\ stderr cp = [] /\
  contains (lit "No manual entry for ") (stdout cp) = false.
Proof.
  rewrite <- TraceFacts.clean_iff.
  destruct (TraceFacts.execute_call_cases run args tr) as [m1 C].
  on_run C cp' exc Er.
  - on_test C Ec.
    + rewrite C. cbn [fst]. split.
      * intros H. injection H as <-. auto.
      * intros [H _]. injection H as <-. reflexivity.
    + destruct C as [note [m2 [_ ->]]]. cbn [fst]. split.
      * discriminate.
      * intros [H Hc]. injection H as <-. congruence.
  - split; [|intros [H _]; discriminate H].
    on_class C Ex; [destruct C as [note [m2 ->]]
                   | destruct C as [note [m2 ->]] | rewrite C];
      discriminate.
Qed.

Lemma execute_call_returns_process_iff_witness :
  fst (execute_call (completes 0 (lit "Success") []) [lit "man"; lit "ls"] [])
  = Returned (inr (mkCompletedProcess [lit "man"; lit "ls"] 0 (lit "Success") [])).
Proof.
  apply (proj2 (execute_call_returns_process_iff
                  (completes 0 (lit "Success") []) [lit "man"; lit "ls"]
                  (mkCompletedProcess [lit "man"; lit "ls"] 0 (lit "Success") [])
                  [])).
  repeat split.
Defined.

(** ** The note of a completed process *)

Module NoteFacts.

Lemma str_truthy_app a b : str_truthy a = true -> str_truthy (a ++ b) = true.
Proof. destruct a; [discriminate | reflexivity]. Qed.

(** The note is made of up to three parts, in this order: the stderr line,
    the stdout that holds the marker, the line of the return code. *)
Lemma execute_call_note run args cp tr :
  run args = Returned cp ->
  let n1 := if str_truthy (stderr cp)
            then lit "Unexpected error encountered: " ++ stderr cp ++ [10%N]
            else [] in
  let n2 := if contains (lit "No manual entry for ") (stdout cp)
            then stdout cp ++ [10%N] else [] in
  let n3 := if negb (returncode cp =? 0)%Z
            then lit "Non zero return code `" ++ str_int (returncode cp)
                 ++ lit "`" ++ [10%N]
            else [] in
  fst (execute_call run args tr)
  = Returned (if str_truthy (n1 ++ n2 ++ n3)
              then inl (mkManError (stdout cp) (stderr cp) (returncode cp)
                          (n1 ++ n2 ++ n3))
              else inr cp).
Proof.
  intros Hrun n1 n2 n3. run_exec. rewrite Hrun. subst n1 n2 n3.
  destruct (str_truthy (stderr cp));
    destruct (contains (lit "No manual entry for ") (stdout cp));
    destruct (negb (returncode cp =? 0)%Z);
    cbn [app]; rewrite ?app_nil_r, <- ?app_assoc;
    match goal with |- context [str_truthy ?n] => destruct (str_truthy n) end;
    reflexivity.
Qed.

End NoteFacts.

(** X9: for a valid query, a process that writes anything to stderr makes
    [search_descriptions] return a [ManError], also when it exits with 0
    and prints matches: the error carries stdout, stderr and the exit code,
    and its note starts with [Unexpected error encountered: ] followed by
    the stderr text and a newline. *)
Theorem search_descriptions_stderr_is_error
  (run : list pystr -> outcome CompletedProcess) (query : pystr)
  (cp : CompletedProcess) (tr : list event) :
  validate_search_query query = true ->
  run [lit "man"; lit "-k"; query] = Returned cp ->
  stderr cp <> [] ->
  exists note,
    fst (search_descriptions run query tr)
    = Returned (mkManResult
                  (IsManError (mkManError (stdout cp) (stderr cp)
                                 (returncode cp) note))) /\
    startswith (lit "Unexpected error encountered: " ++ stderr cp ++ [10%N])
      note = true.
Proof.
  intros Hv Hrun Herr.
  pose proof (NoteFacts.execute_call_note run _ cp tr Hrun) as Hex.
  cbv zeta in Hex.
  assert (Ht : str_truthy (stderr cp) = true)
    by (destruct (stderr cp); [congruence | reflexivity]).
  rewrite Ht in Hex.
  rewrite NoteFacts.str_truthy_app in Hex by reflexivity.
  eexists. split.
  - unfold search_descriptions. rewrite Hv. cbn [negb].
    rewrite (ExecFacts.bind_fst_returned _ _ _ _ Hex). reflexivity.
  - apply StrFacts.startswith_iff. eexists. reflexivity.
Qed.

Lemma search_descriptions_stderr_is_error_witness :
  exists note,
    fst (search_descriptions
           (completes 0 (lit "ls (1) - list") (lit "man: warning"))
           (lit "list") [])
    = Returned (mkManResult
                  (IsManError (mkManError (lit "ls (1) - list")
                                 (lit "man: warning") 0 note))) /\
    startswith (lit "Unexpected error encountered: " ++ lit "man: warning"
                ++ [10%N]) note = true.
Proof.
  apply (search_descriptions_stderr_is_error
           (completes 0 (lit "ls (1) - list") (lit "man: warning"))
           (lit "list")
           (mkCompletedProcess [lit "man"; lit "-k"; lit "list"] 0
              (lit "ls (1) - list") (lit "man: warning"))
           []).
  - reflexivity.
  - reflexivity.
  - discriminate.
Defined.

(** X10: for a valid page and a section that [str] can print (absent or of
    at most 4300 digits), a process that exits with 0 and empty stderr but
    whose stdout contains [No manual entry for ] makes [get_manpage]
    return a [ManError] with return code 0 whose note is that stdout
    followed by a newline, and no [ManPage]. *)
Theorem get_manpage_marker_exit_zero
  (run : list pystr -> outcome CompletedProcess) (page : pystr)
  (section : option Z) (cp : CompletedProcess) (tr : list event) :
  validate_topic page = true ->
  section_fits section = true ->
  run (manpage_args page section) = Returned cp ->
  returncode cp = 0%Z ->
  stderr cp = [] ->
  contains (lit "No manual entry for ") (stdout cp) = true ->
  fst (get_manpage run page section tr)
  = Returned (mkManResult
                (IsManError (mkManError (stdout cp) [] 0
                               (stdout cp ++ [10%N])))).
Proof.
  intros Hv Hf Hrun Hrc Herr Hm.
  pose proof (NoteFacts.execute_call_note run _ cp tr Hrun) as Hex.
  cbv zeta in Hex. rewrite Hrc, Herr, Hm in Hex.
  cbn [str_truthy Z.eqb negb app] in Hex. rewrite app_nil_r in Hex.
  assert (Ht : str_truthy (stdout cp ++ [10%N]) = true)
    by (destruct (stdout cp); reflexivity).
  rewrite Ht in Hex.
  rewrite ExecFacts.get_manpage_valid by assumption.
  fold (manpage_args page section).
  rewrite (ExecFacts.bind_fst_returned _ _ _ _ Hex). reflexivity.
Qed.

Lemma get_manpage_marker_exit_zero_witness :
  fst (get_manpage (completes 0 (lit "No manual entry for zzz") [])
         (lit "zzz") (Some 2%Z) [])
  = Returned (mkManResult
                (IsManError (mkManError (lit "No manual entry for zzz") [] 0
                               (lit "No manual entry for zzz" ++ [10%N])))).
Proof.
  exact (get_manpage_marker_exit_zero
           (completes 0 (lit "No manual entry for zzz") [])
           (lit "zzz") (Some 2%Z)
           (mkCompletedProcess [lit "man"; lit "2"; lit "zzz"] 0
              (lit "No manual entry for zzz") [])
           [] eq_refl eq_refl eq_refl eq_refl eq_refl eq_refl).
Defined.

(** X11: for a valid query, a launch that raises is reported by
    [search_descriptions] as follows: a [TimeoutExpired] gives the
    [ManError] with code -1 and note [Timeout exception <text>.], any
    other [Exception] the same with note [Unknown exception <text>.], and
    an exception outside [Exception] is not caught and leaves the tool. *)
Theorem search_descriptions_launch_failure
  (run : list pystr -> outcome CompletedProcess) (query : pystr)
  (ex : exn) (tr : list event) :
  validate_search_query query = true ->
  run [lit "man"; lit "-k"; query] = Raised ex ->
  fst (search_descriptions run query tr)
  = match exn_class ex with
    | TimeoutExpired =>
        Returned (mkManResult
                    (IsManError (mkManError [] [] (-1)
                                   (lit "Timeout exception " ++ exn_str ex
                                    ++ lit "."))))
    | Exception =>
        Returned (mkManResult
                    (IsManError (mkManError [] [] (-1)
                                   (lit "Unknown exception " ++ exn_str ex
                                    ++ lit "."))))
    | BaseException => Raised ex
    end.
Proof.
  intros Hv Hrun. unfold search_descriptions. rewrite Hv. cbn [negb].
  destruct (exn_class ex) eqn:Ec.
  - rewrite (ExecFacts.bind_fst_returned _ _ _ _
               (ExecFacts.execute_call_timeout run _ ex tr Hrun Ec)).
    reflexivity.
  - rewrite (ExecFacts.bind_fst_returned _ _ _ _
               (ExecFacts.execute_call_exception run _ ex tr Hrun Ec)).
    reflexivity.
  - pose proof (ExecFacts.execute_call_propagates run _ ex tr Hrun Ec) as H.
    unfold bind.
    destruct (execute_call run [lit "man"; lit "-k"; query] tr) as [o t'].
    cbn [fst] in H. rewrite H. reflexivity.
Qed.

Lemma search_descriptions_launch_failure_witness :
  fst (search_descriptions (raises BaseException (lit "KeyboardInterrupt"))
         (lit "list") [])
  = Raised (mkExn BaseException (lit "KeyboardInterrupt")).
Proof.
  exact (search_descriptions_launch_failure
           (raises BaseException (lit "KeyboardInterrupt")) (lit "list")
           (mkExn BaseException (lit "KeyboardInterrupt")) []
           eq_refl eq_refl).
Defined.

(** X12: a tool call logs an error record exactly when the envelope it
    returns reports a failure: one more record for a [ManError] or an
    [InputValidationError], none for a [ManPage] or a [ManSearchResult]. *)
Theorem error_logged_iff_failure
  (run : list pystr -> outcome CompletedProcess) (tr : list event)
  (env : ManResult) :
  (forall query,
     fst (search_descriptions run query tr) = Returned env ->
     List.length (error_logs (snd (search_descriptions run query tr)))
     = (List.length (error_logs tr) + if is_failure env then 1 else 0)%nat) /\
  (forall page section,
     fst (get_manpage run page section tr) = Returned env ->
     List.length (error_logs (snd (get_manpage run page section tr)))
     = (List.length (error_logs tr) + if is_failure env then 1 else 0)%nat).
Proof.
  split.
  - intros query.
    pose proof (ToolFacts.search_descriptions_cases run query tr) as C.
    on_test C Ev.
    + destruct C as [m1 C]. on_run C cp exc Er.
      * on_test C Ec;
          [destruct C as [m3 ->] | destruct C as [note [m2 [_ ->]]]];
          cbn [fst snd]; intros H; injection H as <-;
          rewrite TraceFacts.error_logs_app, length_app; reflexivity.
      * on_class C Ex;
          [destruct C as [note [m2 ->]]
          | destruct C as [note [m2 ->]] | rewrite C];
          cbn [fst snd]; intros H; try discriminate H; injection H as <-;
          rewrite TraceFacts.error_logs_app, length_app; reflexivity.
    + destruct C as [note [m2 ->]]. cbn [fst snd]. intros H.
      injection H as <-.
      rewrite TraceFacts.error_logs_app, length_app. reflexivity.
  - intros page section.
    pose proof (ToolFacts.get_manpage_cases run page section tr) as C.
    on_test C Ev;
      [on_test C Ef; [|rewrite C; cbn [fst]; intros H; discriminate H]|].
    + destruct C as [m1 C]. on_run C cp exc Er.
      * on_test C Ec;
          [destruct C as [m3 ->] | destruct C as [note [m2 [_ ->]]]];
          cbn [fst snd]; intros H; injection H as <-;
          rewrite TraceFacts.error_logs_app, length_app; reflexivity.
      * on_class C Ex;
          [destruct C as [note [m2 ->]]
          | destruct C as [note [m2 ->]] | rewrite C];
          cbn [fst snd]; intros H; try discriminate H; injection H as <-;
          rewrite TraceFacts.error_logs_app, length_app; reflexivity.
    + destruct C as [note [m2 ->]]. cbn [fst snd]. intros H.
      injection H as <-.
      rewrite TraceFacts.error_logs_app, length_app. reflexivity.
Qed.

Lemma error_logged_iff_failure_witness :
  List.length
    (error_logs
       (snd (get_manpage (completes 1 [] (lit "man: can't open")) (lit "ls")
               None [])))
  = 1%nat.
Proof.
  apply (proj2 (error_logged_iff_failure
                  (completes 1 [] (lit "man: can't open")) []
                  (mkManResult
                     (IsManError
                        (mkManError [] (lit "man: can't open") 1
                           (lit "Unexpected error encountered: man: can't open"
                            ++ [10%N] ++ lit "Non zero return code `1`"
                            ++ [10%N])))))
               (lit "ls") None).
  reflexivity.
Defined.

(** X13: what an envelope of [get_manpage] says about the call: a
    [ManPage] is returned only for a valid page whose process completed
    with exit code 0, empty stderr and no [No manual entry for ] in the
    stdout that is its text; a [ManError] only for a valid page, with the
    streams and code of a completed process that showed a signal, or with
    code -1 and empty streams after a raised launch; an
    [InputValidationError] only for an invalid page, which it repeats; a
    [ManSearchResult] never. *)
Theorem get_manpage_result_sound
  (run : list pystr -> outcome CompletedProcess) (page : pystr)
  (section : option Z) (tr : list event) (env : ManResult) :
  fst (get_manpage run page section tr) = Returned env ->
  match result env with
  | IsManPage p =>
      validate_topic page = true /\
      exists cp,
        run (manpage_args page section) = Returned cp /\
        text p = stdout cp /\ returncode cp = 0%Z /\ stderr cp = [] /\
        contains (lit "No manual entry for ") (stdout cp) = false
  | IsManError e =>
      validate_topic page = true /\
      ((exists cp,
          run (manpage_args page section) = Returned cp /\
          clean cp = false /\ me_note e <> [] /\
          me_stdout e = stdout cp /\ me_stderr e = stderr cp /\
          me_return_code e = returncode cp) \/
       (exists ex,
          run (manpage_args page section) = Raised ex /\
          me_stdout e = [] /\ me_stderr e = [] /\
          me_return_code e = (-1)%Z))
  | IsInputValidationError e =>
      validate_topic page = false /\ ive_input e = page
  | IsManSearchResult _ => False
  end.
Proof.
  pose proof (ToolFacts.get_manpage_cases run page section tr) as C.
  on_test C Ev;
    [on_test C Ef; [|rewrite C; cbn [fst]; intros H; discriminate H]|].
  - destruct C as [m1 C]. on_run C cp exc Er.
    + on_test C Ec.
      * destruct C as [m3 ->]. cbn [fst]. intros H. injection H as <-.
        cbn [result text]. split; [reflexivity|]. exists cp.
        apply TraceFacts.clean_iff in Ec. intuition.
      * destruct C as [note [m2 [Hn ->]]]. cbn [fst]. intros H.
        injection H as <-. cbn [result]. split; [reflexivity|].
        left. exists cp.
        cbn [me_note me_stdout me_stderr me_return_code]. repeat split; auto.
    + on_class C Ex;
        [destruct C as [note [m2 ->]]
        | destruct C as [note [m2 ->]] | rewrite C];
        cbn [fst]; intros H; try discriminate H; injection H as <-;
        cbn [result]; (split; [reflexivity|]); right; exists exc;
        cbn [me_note me_stdout me_stderr me_return_code]; repeat split; auto.
  - destruct C as [note [m2 ->]]. cbn [fst]. intros H. injection H as <-.
    cbn [result ive_input]. auto.
Qed.

Lemma get_manpage_result_sound_witness :
  validate_topic (lit "ls") = true /\
  exists cp,
    completes 0 (lit "LS(1)") [] (manpage_args (lit "ls") None) = Returned cp /\
    lit "LS(1)" = stdout cp /\ returncode cp = 0%Z /\ stderr cp = [] /\
    contains (lit "No manual entry for ") (stdout cp) = false.
Proof.
  exact (get_manpage_result_sound (completes 0 (lit "LS(1)") []) (lit "ls")
           None [] (mkManResult (IsManPage (mkManPage (lit "LS(1)"))))
           eq_refl).
Defined.

(** X14: what an envelope of [search_descriptions] says about the call: a
    [ManSearchResult] is returned only for a valid query whose process
    completed with exit code 0, empty stderr and no [No manual entry for ]
    in its stdout, and holds the lines of that stdout; a [ManError] only
    for a valid query; an [InputValidationError] only for an invalid
    query, which it repeats; a [ManPage] never. *)
Theorem search_descriptions_result_sound
  (run : list pystr -> outcome CompletedProcess) (query : pystr)
  (tr : list event) (env : ManResult) :
  fst (search_descriptions run query tr) = Returned env ->
  match result env with
  | IsManSearchResult r =>
      validate_search_query query = true /\
      exists cp,
        run [lit "man"; lit "-k"; query] = Returned cp /\
        results r = splitlines (stdout cp) /\
        returncode cp = 0%Z /\ stderr cp = [] /\
        contains (lit "No manual entry for ") (stdout cp) = false
  | IsManError e =>
      validate_search_query query = true /\
      ((exists cp,
          run [lit "man"; lit "-k"; query] = Returned cp /\
          clean cp = false /\ me_note e <> [] /\
          me_stdout e = stdout cp /\ me_stderr e = stderr cp /\
          me_return_code e = returncode cp) \/
       (exists ex,
          run [lit "man"; lit "-k"; query] = Raised ex /\
          me_stdout e = [] /\ me_stderr e = [] /\
          me_return_code e = (-1)%Z))
  | IsInputValidationError e =>
      validate_search_query query = false /\ ive_input e = query
  | IsManPage _ => False
  end.
Proof.
  pose proof (ToolFacts.search_descriptions_cases run query tr) as C.
  on_test C Ev.
  - destruct C as [m1 C]. on_run C cp exc Er.
    + on_test C Ec.
      * destruct C as [m3 ->]. cbn [fst]. intros H. injection H as <-.
        cbn [result results]. split; [reflexivity|]. exists cp.
        apply TraceFacts.clean_iff in Ec. intuition.
      * destruct C as [note [m2 [Hn ->]]]. cbn [fst]. intros H.
        injection H as <-. cbn [result]. split; [reflexivity|].
        left. exists cp.
        cbn [me_note me_stdout me_stderr me_return_code]. repeat split; auto.
    + on_class C Ex;
        [destruct C as [note [m2 ->]]
        | destruct C as [note [m2 ->]] | rewrite C];
        cbn [fst]; intros H; try discriminate H; injection H as <-;
        cbn [result]; (split; [reflexivity|]); right; exists exc;
        cbn [me_note me_stdout me_stderr me_return_code]; repeat split; auto.
  - destruct C as [note [m2 ->]]. cbn [fst]. intros H. injection H as <-.
    cbn [result ive_input]. auto.
Qed.

Lemma search_descriptions_result_sound_witness :
  validate_search_query (lit "a;b") = false /\ lit "a;b" = lit "a;b".
Proof.
  exact (search_descriptions_result_sound (completes 0 (lit "ok") [])
           (lit "a;b") []
           (mkManResult
              (IsInputValidationError
                 (mkInputValidationError (lit "a;b")
                    (lit "Query contains invalid characters"))))
           eq_refl).
Defined.

(** X15: for a valid query and a process that completes with exit code 0
    and empty stderr, a stdout whose lines end in CR LF is split like one
    whose lines end in LF: [search_descriptions] returns the lines, without
    either character. *)
Theorem search_descriptions_crlf
  (run : list pystr -> outcome CompletedProcess) (query : pystr)
  (ls : list pystr) (tr : list event) :
  validate_search_query query = true ->
  (forall args, run args = completes 0 (unlines_crlf ls) [] args) ->
  contains (lit "No manual entry for ") (unlines_crlf ls) = false ->
  (forall l c, In l ls -> In c l -> is_linebreak c = false) ->
  fst (search_descriptions run query tr)
  = Returned (mkManResult (IsManSearchResult (mkManSearchResult ls))).
Proof.
  intros Hv Hrun Hm Hls.
  unfold search_descriptions. rewrite Hv. cbn [negb].
  assert (Hexec : fst (execute_call run [lit "man"; lit "-k"; query] tr)
                  = Returned (inr (mkCompletedProcess
                                     [lit "man"; lit "-k"; query] 0
                                     (unlines_crlf ls) []))).
  { apply ExecFacts.execute_call_success;
      [apply Hrun | reflexivity | reflexivity | exact Hm]. }
  rewrite (ExecFacts.bind_fst_returned _ _ _ _ Hexec).
  unfold bind, LOG_info, emit, ret. cbn [fst stdout].
  now rewrite LineFacts.splitlines_unlines_crlf.
Qed.

Lemma search_descriptions_crlf_witness :
  fst (search_descriptions
         (completes 0 (unlines_crlf [lit "ls (1)"; lit "cp (1)"]) [])
         (lit "copy files") [])
  = Returned (mkManResult
                (IsManSearchResult
                   (mkManSearchResult [lit "ls (1)"; lit "cp (1)"]))).
Proof.
  apply (search_descriptions_crlf
           (completes 0 (unlines_crlf [lit "ls (1)"; lit "cp (1)"]) [])
           (lit "copy files") [lit "ls (1)"; lit "cp (1)"] []).
  - reflexivity.
  - intros args. reflexivity.
  - reflexivity.
  - intros l c Hl Hc. vm_compute in Hl.
    destruct Hl as [<- | [<- | []]]; vm_compute in Hc;
      repeat (destruct Hc as [<- | Hc]; [reflexivity|]); destruct Hc.
Defined.

(** X16: for a valid query and a process that completes with exit code 0,
    empty stderr and no [No manual entry for ] in stdout, the entries that
    [search_descriptions] returns hold no line boundary, put together they
    are the stdout with its line boundaries removed and nothing else
    changed, and there is no entry exactly when the stdout is empty. *)
Theorem search_descriptions_entries
  (run : list pystr -> outcome CompletedProcess) (query : pystr)
  (out : pystr) (tr : list event) :
  validate_search_query query = true ->
  (forall args, run args = completes 0 out [] args) ->
  contains (lit "No manual entry for ") out = false ->
  exists rs,
    fst (search_descriptions run query tr)
    = Returned (mkManResult (IsManSearchResult (mkManSearchResult rs))) /\
    (forall l c, In l rs -> In c l -> is_linebreak c = false) /\
    List.concat rs = filter (fun c => negb (is_linebreak c)) out /\
    (rs = [] <-> out = []).
Proof.
  intros Hv Hrun Hm. exists (splitlines out). split; [|split; [|split]].
  - unfold search_descriptions. rewrite Hv. cbn [negb].
    assert (Hexec : fst (execute_call run [lit "man"; lit "-k"; query] tr)
                    = Returned (inr (mkCompletedProcess
                                       [lit "man"; lit "-k"; query] 0 out []))).
    { apply ExecFacts.execute_call_success;
        [apply Hrun | reflexivity | reflexivity | exact Hm]. }
    rewrite (ExecFacts.bind_fst_returned _ _ _ _ Hexec). reflexivity.
  - intros l c Hl Hc.
    apply (LineFacts.splitlines_from_no_break (List.length out) [] out
             (le_n _) (fun c0 (H : In c0 []) => match H with end) l c Hl Hc).
  - apply (LineFacts.splitlines_from_concat (List.length out) [] out (le_n _)).
  - split.
    + intros H. now apply LineFacts.splitlines_from_nil in H.
    + intros ->. reflexivity.
Qed.

Lemma search_descriptions_entries_witness :
  exists rs,
    fst (search_descriptions
           (completes 0 (lit "a" ++ [11%N; 13%N] ++ lit "b") [])
           (lit "x") [])
    = Returned (mkManResult (IsManSearchResult (mkManSearchResult rs))) /\
    (forall l c, In l rs -> In c l -> is_linebreak c = false) /\
    List.concat rs
    = filter (fun c => negb (is_linebreak c)) (lit "a" ++ [11%N; 13%N] ++ lit "b") /\
    (rs = [] <-> lit "a" ++ [11%N; 13%N] ++ lit "b" = []).
Proof.
  exact (search_descriptions_entries
           (completes 0 (lit "a" ++ [11%N; 13%N] ++ lit "b") [])
           (lit "x") (lit "a" ++ [11%N; 13%N] ++ lit "b") []
           eq_refl (fun _ => eq_refl) eq_refl).
Defined.
